(** * Daily message backend: queue, dispatcher, scheduler and address resolver

    A shallow embedding of [server.js] (the nodemailer variant; the Resend
    and Twilio variants share the queue, dispatcher and scheduler code) and
    the properties of its scheduling-and-delivery engine.

    Conventions of the embedding:
    - a JavaScript string is a [string] holding its UTF-8 bytes; every
      character the code inspects (digits, [:], sign, [x]) is ASCII, and the
      bytes of a non-ASCII character are all above 127, so none of them is
      mistaken for one of those;
    - [Date.now()] and [new Date()] are readings of the wall clock, passed in
      as integers (milliseconds); an ISO timestamp is represented by the
      instant it denotes;
    - the outcome of [fs.writeFile] and of the mail transport are inputs of
      the operation that awaits them;
    - the message objects live in a store and the [messages] array holds
      references to them, as [unsentMessages[0]] aliases an element of
      [messages]. *)

From Stdlib Require Import ZArith Ascii String List Bool Lia Sorted.
From Stdlib Require Import DecimalString DecimalPos DecimalZ.
From stdpp Require Import gmap strings list sorting.

Local Open Scope Z_scope.

(** ** JavaScript string primitives used by the source *)

Module Js.

Definition code (c : ascii) : Z := Z.of_nat (nat_of_ascii c).

(** The class [\d] of a regular expression without the [u] flag. *)
Definition is_digit (c : ascii) : bool := (48 <=? code c) && (code c <=? 57).

(** [s.replace(/\D/g, '')] *)
Fixpoint replace_non_digits (s : string) : string :=
  match s with
  | EmptyString => EmptyString
  | String c r =>
      if is_digit c then String c (replace_non_digits r)
      else replace_non_digits r
  end.

(** [s.replace(/^1/, '')] *)
Definition replace_leading_1 (s : string) : string :=
  match s with
  | String c r => if Ascii.eqb c "1" then r else s
  | EmptyString => s
  end.

(** [s.split(':')]: the result always has at least one element. *)
Fixpoint split_colon (s : string) : list string :=
  match s with
  | EmptyString => [EmptyString]
  | String c r =>
      if Ascii.eqb c ":" then EmptyString :: split_colon r
      else match split_colon r with
           | p :: ps => String c p :: ps
           | [] => [String c EmptyString]
           end
  end.

Definition of_bytes (l : list nat) : string :=
  fold_right (fun n s => String (ascii_of_nat n) s) EmptyString l.

(** The white space and line terminators skipped by [parseInt], in UTF-8:
    TAB, LF, VT, FF, CR, SP, U+00A0, U+1680, U+2000 to U+200A, U+2028,
    U+2029, U+202F, U+205F, U+3000 and U+FEFF. *)
Definition white_space : list string :=
  map of_bytes
    (List.app
       [[9]; [10]; [11]; [12]; [13]; [32]; [194; 160]; [225; 154; 128]]
       (List.app
          (map (fun k => [226; 128; k]) (seq 128 11))
          [[226; 128; 168]; [226; 128; 169]; [226; 128; 175];
           [226; 129; 159]; [227; 128; 128]; [239; 187; 191]]))%nat.

Fixpoint drop_bytes (n : nat) (s : string) : string :=
  match n, s with
  | S n', String _ r => drop_bytes n' r
  | _, _ => s
  end.

Definition strip_one_space (s : string) : option string :=
  match List.find (fun w => String.prefix w s) white_space with
  | Some w => Some (drop_bytes (String.length w) s)
  | None => None
  end.

Fixpoint trim_start_fuel (fuel : nat) (s : string) : string :=
  match fuel with
  | O => s
  | S fuel' =>
      match strip_one_space s with
      | Some r => trim_start_fuel fuel' r
      | None => s
      end
  end.

(** Every strip removes at least one byte, so the length is enough fuel. *)
Definition trim_start (s : string) : string :=
  trim_start_fuel (String.length s) s.

Definition digit_value (radix : Z) (c : ascii) : option Z :=
  let n := code c in
  let v := if (48 <=? n) && (n <=? 57) then Some (n - 48)
           else if (97 <=? n) && (n <=? 122) then Some (n - 87)
           else if (65 <=? n) && (n <=? 90) then Some (n - 55)
           else None in
  match v with
  | Some d => if d <? radix then Some d else None
  | None => None
  end.

(** The longest prefix of digits of the radix; [None] when it is empty. *)
Fixpoint parse_digits (radix : Z) (s : string) (acc : option Z) : option Z :=
  match s with
  | EmptyString => acc
  | String c r =>
      match digit_value radix c with
      | Some d => parse_digits radix r (Some (radix * default 0 acc + d))
      | None => acc
      end
  end.

(** [parseInt(s)] without a radix; [None] is [NaN]. The result is the
    exact integer: a Number is exact up to 2^53, every [Date.now()] lies
    below 8.64e15 < 2^53, and a longer numeral rounds to a Number of
    magnitude at least 2^53, which equals no [Date.now()] either way. *)
Definition parseInt (s : string) : option Z :=
  let s0 := trim_start s in
  let '(sign, s1) :=
    match s0 with
    | String c r =>
        if Ascii.eqb c "-" then (-1, r)
        else if Ascii.eqb c "+" then (1, r)
        else (1, s0)
    | EmptyString => (1, s0)
    end in
  let '(radix, s2) :=
    match s1 with
    | String c0 (String c1 r) =>
        if Ascii.eqb c0 "0" && (Ascii.eqb c1 "x" || Ascii.eqb c1 "X")
        then (16, r) else (10, s1)
    | _ => (10, s1)
    end in
  match parse_digits radix s2 None with
  | Some n => Some (sign * n)
  | None => None
  end.

(** [a !== b] for a Number [a] that is not [NaN]: [NaN] differs from
    everything. *)
Definition strict_ne (a : Z) (b : option Z) : bool :=
  match b with
  | Some n => negb (a =? n)
  | None => true
  end.

(** The values a property read of [CARRIER_DOMAINS] can produce. *)
Inductive value :=
| Undefined
| Str (s : string)
| NativeFunction (name : string)
| ObjectPrototype.

Definition truthy (v : value) : bool :=
  match v with
  | Undefined => false
  | Str s => negb (String.eqb s EmptyString)
  | NativeFunction _ | ObjectPrototype => true
  end.

(** The conversion done by a template literal. *)
Definition to_string (v : value) : string :=
  match v with
  | Undefined => "undefined"
  | Str s => s
  | NativeFunction name => "function " +:+ name +:+ "() { [native code] }"
  | ObjectPrototype => "[object Object]"
  end.

(** The properties every object literal inherits from [Object.prototype]. *)
Definition object_prototype : gmap string value :=
  list_to_map
    [("constructor", NativeFunction "Object");
     ("__defineGetter__", NativeFunction "__defineGetter__");
     ("__defineSetter__", NativeFunction "__defineSetter__");
     ("hasOwnProperty", NativeFunction "hasOwnProperty");
     ("__lookupGetter__", NativeFunction "__lookupGetter__");
     ("__lookupSetter__", NativeFunction "__lookupSetter__");
     ("isPrototypeOf", NativeFunction "isPrototypeOf");
     ("propertyIsEnumerable", NativeFunction "propertyIsEnumerable");
     ("toString", NativeFunction "toString");
     ("valueOf", NativeFunction "valueOf");
     ("toLocaleString", NativeFunction "toLocaleString");
     ("__proto__", ObjectPrototype)].

(** [obj[key]] on an object literal whose own properties are strings: the
    own property when there is one, the inherited one otherwise. *)
Definition get (own : gmap string string) (key : string) : value :=
  match own !! key with
  | Some s => Str s
  | None => default Undefined (object_prototype !! key)
  end.

End Js.

(** ** Address resolver *)

Definition CARRIER_DOMAINS : gmap string string :=
  list_to_map
    [("att", "txt.att.net");
     ("verizon", "vtext.com");
     ("tmobile", "tmomail.net");
     ("sprint", "messaging.sprintpcs.com");
     ("uscellular", "email.uscc.net");
     ("boost", "sms.myboostmobile.com");
     ("cricket", "sms.cricketwireless.net");
     ("metropcs", "mymetropcs.com")].

Definition phoneToSmsEmail (phoneNumber carrier : string) : string :=
  let cleanNumber := Js.replace_leading_1 (Js.replace_non_digits phoneNumber) in
  let found := Js.get CARRIER_DOMAINS carrier in
  let domain := if Js.truthy found then found else Js.get CARRIER_DOMAINS "att" in
  cleanNumber +:+ "@" +:+ Js.to_string domain.

(** ** Data model *)

Module Message.

(** A message object: [{ id, text, sent, createdAt, sentAt }]; [sentAt]
    is absent until the dispatcher sets it. *)
Record t := mk {
  id : Z;
  text : string;
  sent : bool;
  createdAt : Z;
  sentAt : option Z
}.

(** [m.sent = true; m.sentAt = new Date().toISOString()] *)
Definition mark_sent (now : Z) (m : t) : t :=
  mk (id m) (text m) true (createdAt m) (Some now).

#[global] Instance eq_dec : EqDecision t.
Proof. solve_decision. Defined.

End Message.

Record Config := mkConfig {
  phoneNumber : string;
  sendTime : string;
  carrier : string
}.

(** A task returned by [cron.schedule]. *)
Record CronJob := mkCronJob {
  expression : string;
  running : bool
}.

(** The module-level variables of the server and the two data files. A
    reference to a message object is its index in [heap]; objects are never
    freed, so a reference stays valid after the message left the queue. *)
Record State := mkState {
  transporter : bool;
  heap : list Message.t;
  messages : list nat;
  config : Config;
  messages_file : option (list Message.t);
  config_file : option Config;
  jobs : list CronJob;
  currentCronJob : option nat
}.

Definition with_heap (h : list Message.t) (st : State) : State :=
  mkState (transporter st) h (messages st) (config st) (messages_file st)
          (config_file st) (jobs st) (currentCronJob st).

Definition with_messages (ms : list nat) (st : State) : State :=
  mkState (transporter st) (heap st) ms (config st) (messages_file st)
          (config_file st) (jobs st) (currentCronJob st).

Definition with_config (c : Config) (st : State) : State :=
  mkState (transporter st) (heap st) (messages st) c (messages_file st)
          (config_file st) (jobs st) (currentCronJob st).

Definition with_messages_file (f : option (list Message.t)) (st : State) : State :=
  mkState (transporter st) (heap st) (messages st) (config st) f
          (config_file st) (jobs st) (currentCronJob st).

Definition with_config_file (f : option Config) (st : State) : State :=
  mkState (transporter st) (heap st) (messages st) (config st) (messages_file st)
          f (jobs st) (currentCronJob st).

Definition with_jobs (js : list CronJob) (st : State) : State :=
  mkState (transporter st) (heap st) (messages st) (config st) (messages_file st)
          (config_file st) js (currentCronJob st).

Definition with_currentCronJob (j : option nat) (st : State) : State :=
  mkState (transporter st) (heap st) (messages st) (config st) (messages_file st)
          (config_file st) (jobs st) j.

(** The state right after the declarations at the top of the file, before
    any data file exists. *)
Definition initial (transporter_ready : bool) : State :=
  mkState transporter_ready [] [] (mkConfig "" "12:00" "att") None None [] None.

(** The array [messages] as values, which is what [JSON.stringify] and the
    [GET /api/messages] reply show. *)
Definition queue (st : State) : list Message.t :=
  omap (fun r => heap st !! r) (messages st).

(** ** Persistence *)

(** [saveMessages]: the array is serialised when the call is made; a failed
    write is logged and swallowed, and leaves the file as it was. *)
Definition saveMessages (fs_ok : bool) (st : State) : State :=
  if fs_ok then with_messages_file (Some (queue st)) st else st.

Definition saveConfig (fs_ok : bool) (st : State) : State :=
  if fs_ok then with_config_file (Some (config st)) st else st.

(** ** Message queue: the handlers of [/api/messages] *)

(** What a handler sends back: [res.json({ success, ... })], or status 500
    with the error message from its [catch]. *)
Inductive Reply (A : Type) :=
| Json (success_flag : bool) (payload : A)
| Status500 (error : string).
Arguments Json {A} success_flag payload.
Arguments Status500 {A} error.

(** [POST /api/messages]: [now_id] is the reading of [Date.now()],
    [now_created] the one of [new Date()]. *)
Definition addMessage (now_id now_created : Z) (fs_ok : bool) (body_text : string)
    (st : State) : State * Reply Message.t :=
  let newMessage := Message.mk now_id body_text false now_created None in
  let ref := length (heap st) in
  let st1 := with_messages (messages st ++ [ref])
               (with_heap (heap st ++ [newMessage]) st) in
  (saveMessages fs_ok st1, Json true newMessage).

(** The predicate [m => m.id !== id] on a reference. *)
Definition id_differs (h : list Message.t) (target : option Z) (r : nat) : bool :=
  match h !! r with
  | Some m => Js.strict_ne (Message.id m) target
  | None => true
  end.

(** [DELETE /api/messages/:id] *)
Definition deleteMessage (fs_ok : bool) (params_id : string) (st : State)
    : State * Reply unit :=
  let target := Js.parseInt params_id in
  let st1 := with_messages
               (List.filter (id_differs (heap st) target) (messages st)) st in
  (saveMessages fs_ok st1, Json true tt).

(** ** Dispatcher: [sendDailyMessage] *)

Record Result := mkResult {
  success : bool;
  message : string
}.

(** The predicate [m => !m.sent] on a reference. *)
Definition is_unsent (h : list Message.t) (r : nat) : bool :=
  match h !! r with
  | Some m => negb (Message.sent m)
  | None => false
  end.

(** [messages.filter(m => !m.sent)] *)
Definition unsentMessages (st : State) : list nat :=
  List.filter (is_unsent (heap st)) (messages st).

(** The selection [unsentMessages[0]], as a message. *)
Definition oldestUnsent (st : State) : option Message.t :=
  match unsentMessages st with
  | r :: _ => heap st !! r
  | [] => None
  end.

(** What a run holds on to while it awaits [transporter.sendMail]. *)
Record Pending := mkPending {
  messageToSend : nat;
  smsEmail : string;
  mailText : string
}.

(** How the promise of [transporter.sendMail] settles. *)
Inductive SendOutcome :=
| Delivered
| Rejected (error_message : string).

(** The part of [sendDailyMessage] before the first [await]: the three
    early returns, or the mail handed to the transport. *)
Definition select (st : State) : Result + Pending :=
  match unsentMessages st with
  | [] => inl (mkResult false "No messages queued")
  | r :: _ =>
      if negb (transporter st) then inl (mkResult false "Email not configured")
      else if String.eqb (phoneNumber (config st)) ""
      then inl (mkResult false "No phone number configured")
      else inr (mkPending r
                  (phoneToSmsEmail (phoneNumber (config st)) (carrier (config st)))
                  (from_option Message.text "" (heap st !! r)))
  end.

(** The part after the [await]: mark, save and report, or the [catch]. *)
Definition complete (p : Pending) (outcome : SendOutcome) (now : Z) (fs_ok : bool)
    (st : State) : State * Result :=
  match outcome with
  | Delivered =>
      let st1 := with_heap (alter (Message.mark_sent now) (messageToSend p) (heap st)) st in
      (saveMessages fs_ok st1, mkResult true "Message sent!")
  | Rejected error_message => (st, mkResult false error_message)
  end.

(** A run that nothing interleaves with. *)
Definition sendDailyMessage (outcome : SendOutcome) (now : Z) (fs_ok : bool)
    (st : State) : State * Result :=
  match select st with
  | inl r => (st, r)
  | inr p => complete p outcome now fs_ok st
  end.

(** ** Scheduler: [setupSchedule] and [POST /api/config] *)

Definition stop (j : CronJob) : CronJob := mkCronJob (expression j) false.

(** [const [hours, minutes] = sendTime.split(':')] and the template
    [`${minutes} ${hours} * * *`]; a missing element prints as
    [undefined]. *)
Definition cronTime (send_time : string) : string :=
  let parts := Js.split_colon send_time in
  let hours := nth 0 parts "undefined" in
  let minutes := nth 1 parts "undefined" in
  minutes +:+ " " +:+ hours +:+ " * * *".

(** [a || b] on strings: an absent field and the empty string are both
    falsy, and both are the empty string here. *)
Definition or_else (a b : string) : string :=
  if String.eqb a "" then b else a.

Section Scheduler.

(** [cron.schedule] belongs to the node-cron package: [cron_check e] is
    the message of the error it throws on the expression [e], or [None]
    when it accepts [e] and returns a started task. *)
Variable cron_check : string -> option string.

(** The new state, and the message of the exception when one escapes. *)
Definition setupSchedule (st : State) : State * option string :=
  let st1 :=
    match currentCronJob st with
    | Some j => with_jobs (alter stop j (jobs st)) st
    | None => st
    end in
  let e := cronTime (sendTime (config st1)) in
  match cron_check e with
  | Some err => (st1, Some err)
  | None =>
      let j := length (jobs st1) in
      (with_currentCronJob (Some j)
         (with_jobs (jobs st1 ++ [mkCronJob e true]) st1), None)
  end.

Definition postConfig (body_phoneNumber body_sendTime body_carrier : string)
    (fs_ok : bool) (st : State) : State * Reply Config :=
  let c := mkConfig body_phoneNumber
             (or_else body_sendTime "12:00") (or_else body_carrier "att") in
  let st1 := saveConfig fs_ok (with_config c st) in
  match setupSchedule st1 with
  | (st2, None) => (st2, Json true c)
  | (st2, Some err) => (st2, Status500 err)
  end.

End Scheduler.

(** The job the scheduler has armed, if it is running. *)
Definition armed (st : State) : option CronJob :=
  match currentCronJob st with
  | Some j =>
      match jobs st !! j with
      | Some job => if running job then Some job else None
      | None => None
      end
  | None => None
  end.

(** ** Sequences of requests *)

Inductive Op :=
| OpAdd (now_id now_created : Z) (fs_ok : bool) (body_text : string)
| OpDelete (fs_ok : bool) (params_id : string)
| OpSend (outcome : SendOutcome) (now : Z) (fs_ok : bool).

Definition apply_op (st : State) (o : Op) : State :=
  match o with
  | OpAdd now_id now_created fs_ok body_text =>
      fst (addMessage now_id now_created fs_ok body_text st)
  | OpDelete fs_ok params_id => fst (deleteMessage fs_ok params_id st)
  | OpSend outcome now fs_ok => fst (sendDailyMessage outcome now fs_ok st)
  end.

Definition run_ops (ops : list Op) (st : State) : State :=
  fold_left apply_op ops st.

(** The readings of [Date.now()] taken by the enqueues of a sequence. *)
Definition add_times (ops : list Op) : list Z :=
  omap (fun o => match o with OpAdd now_id _ _ _ => Some now_id | _ => None end) ops.

(** ** Overlapping dispatcher runs

    The event loop interleaves runs only where they await: a run goes from
    its start to [await transporter.sendMail] in one piece, and from the
    settling of that promise to its result in another. *)

Inductive Event :=
| Invoke (run : nat)
| Settle (run : nat) (outcome : SendOutcome) (now : Z) (fs_ok : bool).

Record Completion := mkCompletion {
  completed_run : nat;
  result : Result;
  selected : option nat
}.

Record Sys := mkSys {
  sys_state : State;
  awaiting : gmap nat Pending;
  completions : list Completion
}.

Definition step (s : Sys) (e : Event) : Sys :=
  match e with
  | Invoke k =>
      match select (sys_state s) with
      | inl r =>
          mkSys (sys_state s) (awaiting s)
                (completions s ++ [mkCompletion k r None])
      | inr p => mkSys (sys_state s) (<[k := p]> (awaiting s)) (completions s)
      end
  | Settle k outcome now fs_ok =>
      match awaiting s !! k with
      | Some p =>
          let '(st', r) := complete p outcome now fs_ok (sys_state s) in
          mkSys st' (delete k (awaiting s))
                (completions s ++ [mkCompletion k r (Some (messageToSend p))])
      | None => s
      end
  end.

Definition exec (schedule : list Event) (st : State) : Sys :=
  fold_left step schedule (mkSys st ∅ []).

(** ** Well-formed states *)

(** Every reference in the queue points into the store, no object is
    queued twice, and [sentAt] is set exactly on the sent objects. *)
Definition wf (st : State) : Prop :=
  Forall (fun r => (r < length (heap st))%nat) (messages st)
  /\ NoDup (messages st)
  /\ Forall (fun m => Message.sent m = bool_decide (is_Some (Message.sentAt m)))
            (heap st).

#[global] Instance wf_dec st : Decision (wf st).
Proof. unfold wf. apply _. Defined.

(** The predicate [m => m.sent] on a reference. *)
Definition is_sent (h : list Message.t) (r : nat) : bool :=
  match h !! r with
  | Some m => Message.sent m
  | None => false
  end.


(** The runs that reported success for a message whose id is [i]. *)
Definition sent_runs_for_id (i : Z) (s : Sys) : list nat :=
  map completed_run
    (List.filter
       (fun c =>
          success (result c)
          && bool_decide
               (selected c ≫= (fun r => Message.id <$> heap (sys_state s) !! r)
                = Some i))
       (completions s)).

(** Two triggers, the second of which arrives while the first awaits the
    transport, and two triggers one after the other. *)
Definition overlapping (t1 t2 : Z) (f1 f2 : bool) : list Event :=
  [Invoke 0; Invoke 1; Settle 0 Delivered t1 f1; Settle 1 Delivered t2 f2].

Definition back_to_back (t1 t2 : Z) (f1 f2 : bool) : list Event :=
  [Invoke 0; Settle 0 Delivered t1 f1; Invoke 1; Settle 1 Delivered t2 f2].

Definition outcomes (s : Sys) : list (nat * Result) :=
  map (fun c => (completed_run c, result c)) (completions s).

Definition Sent : Result := mkResult true "Message sent!".
Definition NoMessagesQueued : Result := mkResult false "No messages queued".

(** ** Sample states *)

(** A configured server with the single message of the end-to-end
    scenario queued. *)
Definition st_hello : State :=
  fst (addMessage 1700000000000 1700000000000 true "Hello"
         (with_config (mkConfig "+15551234567" "12:00" "tmobile") (initial true))).

(** The server after start-up with the default configuration, once
    [cron.schedule] has accepted the default expression. *)
Definition st_armed : State :=
  fst (setupSchedule (fun _ => None) (initial true)).

(** A sample sequence: two enqueues in the same millisecond, a third one
    later, and a delete that removes the first two at once. *)
Definition sample_ops : list Op :=
  [OpAdd 1700000000000 1700000000000 true "first";
   OpAdd 1700000000000 1700000000000 true "second";
   OpAdd 1700000000007 1700000000007 true "third";
   OpDelete true "1700000000000"].

(** A stand-in for the check of [cron.schedule] that refuses the
    expression built from the send time [25:99] and accepts the rest. *)
Definition sample_cron_check (e : string) : option string :=
  if String.eqb e "99 25 * * *"
  then Some "99 is a invalid expression for minute"
  else None.

(** The queue lists its objects in the order they were allocated. *)
Definition allocation_ordered (st : State) : Prop :=
  StronglySorted lt (messages st)
  /\ Forall (fun r => (r < length (heap st))%nat) (messages st).

(** ** Statements of the specification that the code is checked against *)

(** An enqueue of the empty text is refused and changes nothing. *)
Definition rejects_empty_text (now_id now_created : Z) (fs_ok : bool) (st : State) : Prop :=
  let '(st', reply) := addMessage now_id now_created fs_ok "" st in
  (exists e, reply = Status500 e) /\ st' = st.

(** Every message got an id above all the ids given out before it; the
    store holds every message ever created, in creation order. *)
Definition ids_strictly_increasing (st : State) : Prop :=
  StronglySorted Z.lt (map Message.id (heap st)).

(** Whether the queue holds a message with the id the parameter denotes. *)
Definition id_queued (params_id : string) (st : State) : bool :=
  existsb (fun m => negb (Js.strict_ne (Message.id m) (Js.parseInt params_id)))
          (queue st).

(** The reply of a delete tells whether such a message existed. *)
Definition reports_existence (fs_ok : bool) (params_id : string) (st : State) : Prop :=
  snd (deleteMessage fs_ok params_id st) = Json (id_queued params_id st) tt.

(** The selection of the dispatcher is an unsent message of the queue
    with the lowest id among the unsent ones, or nothing when the queue has
    no unsent message. *)
Definition selects_lowest_id (st : State) : Prop :=
  match oldestUnsent st with
  | Some m =>
      m ∈ queue st
      /\ Message.sent m = false
      /\ forall m', m' ∈ queue st -> Message.sent m' = false ->
                    Message.id m <= Message.id m'
  | None => forall m', m' ∈ queue st -> Message.sent m' = true
  end.

(** A config update is refused and leaves the armed job as it was. *)
Definition keeps_schedule_on_error (cron_check : string -> option string)
    (body_phoneNumber body_sendTime body_carrier : string) (fs_ok : bool)
    (st : State) : Prop :=
  let '(st', reply) :=
    postConfig cron_check body_phoneNumber body_sendTime body_carrier fs_ok st in
  (exists e, reply = Status500 e) /\ armed st' = armed st.

(** Of the runs of a schedule, exactly one reports success for the
    message with id [i]. *)
Definition single_flight (schedule : list Event) (i : Z) (st : State) : Prop :=
  length (sent_runs_for_id i (exec schedule st)) = 1%nat.

(** ** Status replies: [GET /] and [GET /api/health] *)

(** [messages.filter(m => m.sent)] *)
Definition sentMessages (st : State) : list nat :=
  List.filter (is_sent (heap st)) (messages st).

(** The body of the reply of [GET /api/health], less the constant
    [status] field. *)
Record Health := mkHealth {
  emailConfigured : bool;
  messagesQueued : nat;
  messagesSent : nat;
  health_config : Config
}.

Definition health (st : State) : Health :=
  mkHealth (transporter st) (length (unsentMessages st))
           (length (sentMessages st)) (config st).

(** The field [messagesCount] of the reply of [GET /]. *)
Definition messagesCount (st : State) : nat := length (messages st).

(** ** Start-up: [initializeStorage] and [start] *)

(** How the file operations of a start-up go. A read fails when the file
    is missing, cannot be read, or does not parse; the [catch] around it is
    the same for all three. *)
Record StartupIo := mkStartupIo {
  mkdir_ok : bool;
  read_messages_ok : bool;
  write_messages_ok : bool;
  read_config_ok : bool;
  write_config_ok : bool
}.

(** [messages = JSON.parse(messagesData)]: the parsed array holds objects
    of its own. *)
Definition load_messages (l : list Message.t) (st : State) : State :=
  with_messages (seq (length (heap st)) (length l))
                (with_heap (heap st ++ l) st).

Definition initializeStorage (io : StartupIo) (st : State) : State :=
  if mkdir_ok io then
    let st1 :=
      match (if read_messages_ok io then messages_file st else None) with
      | Some l => load_messages l st
      | None => saveMessages (write_messages_ok io) st
      end in
    match (if read_config_ok io then config_file st1 else None) with
    | Some c => with_config c st1
    | None => saveConfig (write_config_ok io) st1
    end
  else st.

(** A new process on the files the old one left: the module-level
    variables are back at their declarations. *)
Definition restart (st : State) : State :=
  mkState (transporter st) [] [] (mkConfig "" "12:00" "att")
          (messages_file st) (config_file st) [] None.

(** [start]: the state the server listens with, or [None] when the
    exception of [setupSchedule] reaches [process.exit(1)]. *)
Definition start (cron_check : string -> option string) (io : StartupIo)
    (st : State) : option State :=
  match setupSchedule cron_check (initializeStorage io st) with
  | (st', None) => Some st'
  | (_, Some _) => None
  end.

(** A start-up on which every file operation goes through. *)
Definition io_ok : StartupIo := mkStartupIo true true true true true.


(** ** Sequences of config updates *)

Record ConfigUpdate := mkConfigUpdate {
  upd_phoneNumber : string;
  upd_sendTime : string;
  upd_carrier : string;
  upd_fs_ok : bool
}.

Definition apply_config (cron_check : string -> option string) (st : State)
    (u : ConfigUpdate) : State :=
  fst (postConfig cron_check (upd_phoneNumber u) (upd_sendTime u) (upd_carrier u)
                  (upd_fs_ok u) st).

Definition run_configs (cron_check : string -> option string)
    (us : list ConfigUpdate) (st : State) : State :=
  fold_left (apply_config cron_check) us st.

(** The tasks that still fire. *)
Definition running_jobs (st : State) : list CronJob :=
  List.filter running (jobs st).

(** ** The id as the replies print it *)

(** [JSON.stringify] of an integer Number below 1e21: the decimal
    numeral, with a minus sign for a negative one. *)
Definition integer_to_string (n : Z) : string :=
  NilZero.string_of_int (Z.to_int n).

(** The value of a numeral read from the left onto an accumulator. *)
Fixpoint uint_value (d : Decimal.uint) (acc : Z) : Z :=
  match d with
  | Decimal.Nil => acc
  | Decimal.D0 d => uint_value d (10 * acc)
  | Decimal.D1 d => uint_value d (10 * acc + 1)
  | Decimal.D2 d => uint_value d (10 * acc + 2)
  | Decimal.D3 d => uint_value d (10 * acc + 3)
  | Decimal.D4 d => uint_value d (10 * acc + 4)
  | Decimal.D5 d => uint_value d (10 * acc + 5)
  | Decimal.D6 d => uint_value d (10 * acc + 6)
  | Decimal.D7 d => uint_value d (10 * acc + 7)
  | Decimal.D8 d => uint_value d (10 * acc + 8)
  | Decimal.D9 d => uint_value d (10 * acc + 9)
  end.

(** ** The in-memory variant, [backend-server.js] *)

Module BackendServer.

(** [sendDailyMessage] of this variant: no check of the transport or of
    the destination, nothing written, nothing returned. *)
Definition sendDailyMessage (outcome : SendOutcome) (now : Z) (st : State) : State :=
  match unsentMessages st with
  | [] => st
  | r :: _ =>
      match outcome with
      | Delivered => with_heap (alter (Message.mark_sent now) r (heap st)) st
      | Rejected _ => st
      end
  end.

(** [POST /api/send-now] of this variant. *)
Definition sendNow (outcome : SendOutcome) (now : Z) (st : State) : State * Result :=
  (sendDailyMessage outcome now st, mkResult true "Message sent!").

End BackendServer.

(** The runs of a list of delivery times, each delivered. *)
Definition delivered_runs (l : list (Z * bool)) : list Op :=
  map (fun tf => OpSend Delivered (fst tf) (snd tf)) l.

(** The configured server with a second message queued behind the first. *)
Definition st_two : State :=
  fst (addMessage 1700000000500 1700000000500 true "World" st_hello).

(** ** The Resend variant *)

Module Resend.

(** What the reading of a response body as text comes to. *)
Inductive Read :=
| Got (s : string)
| Failed (error_message : string).

(** A parsed response body, as far as the code looks at it: [null], on
    which the property read [result.id] throws, or any other value, with
    its property [id] when it has one. *)
Inductive Body :=
| BodyNull
| BodyWith (id : option string).

(** What [response.json()] comes to. *)
Inductive Json :=
| Parsed (body : Body)
| Unparsable (error_message : string).

(** What [fetch] comes to: it rejects, or it gives a response with its
    [ok] flag, whose body [response.text()] and [response.json()] read. *)
Inductive Fetched :=
| NetworkError (error_message : string)
| Response (ok : bool) (text : Read) (json : Json).

(** [sendEmailViaResend]: the parsed body it returns, or the message of
    the error that is thrown. *)
Definition sendEmailViaResend (f : Fetched) : Body + string :=
  match f with
  | NetworkError e => inr e
  | Response false (Got t) _ => inr ("Resend API error: " +:+ t)
  | Response false (Failed e) _ => inr e
  | Response true _ (Parsed b) => inl b
  | Response true _ (Unparsable e) => inr e
  end.

(** The message of the [TypeError] of [result.id] on [null], in the
    wording of the engine that provides [fetch]. *)
Definition null_id_error : string :=
  "Cannot read properties of null (reading 'id')".

(** [sendDailyMessage] of this variant; [transporter] is its flag
    [resendConfigured], and the second component of the result is the
    field [id] of the reply, absent when [result.id] is undefined. The read
    of [result.id] for the log line comes before the mark, inside the
    [try]. *)
Definition sendDailyMessage (f : Fetched) (now : Z) (fs_ok : bool) (st : State)
    : State * (Result * option string) :=
  match unsentMessages st with
  | [] => (st, (mkResult false "No messages queued", None))
  | r :: _ =>
      if negb (transporter st)
      then (st, (mkResult false "Resend not configured", None))
      else if String.eqb (phoneNumber (config st)) ""
      then (st, (mkResult false "No phone number configured", None))
      else
        match sendEmailViaResend f with
        | inl BodyNull => (st, (mkResult false null_id_error, None))
        | inl (BodyWith i) =>
            (saveMessages fs_ok
               (with_heap (alter (Message.mark_sent now) r (heap st)) st),
             (mkResult true "Message sent!", i))
        | inr e => (st, (mkResult false e, None))
        end
  end.

End Resend.

(** ** Predicates of the statements *)

Fixpoint no_colon (s : string) : bool :=
  match s with
  | EmptyString => true
  | String c r => negb (Ascii.eqb c ":") && no_colon r
  end.

Fixpoint all_digits (s : string) : bool :=
  match s with
  | EmptyString => true
  | String c r => Js.is_digit c && all_digits r
  end.

(** A task that runs is the current one, and it is the one for the send
    time of the config. *)
Definition schedule_consistent (st : State) : Prop :=
  forall k job,
    jobs st !! k = Some job -> running job = true ->
    currentCronJob st = Some k
    /\ expression job = cronTime (sendTime (config st)).



(** * Properties *)

(** ** The primitives on sample inputs *)

Example resolver_tmobile :
  phoneToSmsEmail "+15551234567" "tmobile" = "5551234567@tmomail.net".
Proof. vm_compute. reflexivity. Qed.

Example resolver_inherited :
  phoneToSmsEmail "+15551234567" "toString"
  = "5551234567@function toString() { [native code] }".
Proof. vm_compute. reflexivity. Qed.

Example parseInt_samples :
  Js.parseInt "1700000000000" = Some 1700000000000
  /\ Js.parseInt "  -42px" = Some (-42)
  /\ Js.parseInt "0x1F" = Some 31
  /\ Js.parseInt "abc" = None
  /\ Js.parseInt "" = None
  /\ Js.parseInt (Js.of_bytes [194; 160; 55]%nat) = Some 7.
Proof. vm_compute. repeat split; reflexivity. Qed.

Example split_samples :
  Js.split_colon "25:99" = ["25"; "99"]
  /\ Js.split_colon "12" = ["12"]
  /\ Js.split_colon "" = [""]
  /\ Js.split_colon "1:2:3" = ["1"; "2"; "3"].
Proof. vm_compute. repeat split; reflexivity. Qed.

(** ** Store and queue lemmas *)

Section StoreLemmas.

Implicit Types (h : list Message.t) (r : nat) (m : Message.t).

Lemma is_unsent_Some h r :
  is_unsent h r = true <-> exists m, h !! r = Some m /\ Message.sent m = false.
Proof.
  unfold is_unsent. destruct (h !! r) as [m|] eqn:E.
  - rewrite negb_true_iff. split; [eauto|]. intros (m' & Hm & Hs). congruence.
  - split; [discriminate|]. intros (m' & Hm & _). discriminate.
Qed.


Lemma is_unsent_alter_mark h r r' now :
  is_unsent (alter (Message.mark_sent now) r h) r'
  = is_unsent h r' && negb (Nat.eqb r' r).
Proof.
  unfold is_unsent. destruct (Nat.eqb_spec r' r) as [->|Hne].
  - rewrite list_lookup_alter_eq. simpl. rewrite andb_false_r.
    by destruct (h !! r).
  - rewrite list_lookup_alter_ne by done. simpl. by rewrite andb_true_r.
Qed.




Lemma heap_saveMessages f st : heap (saveMessages f st) = heap st.
Proof. by destruct f. Qed.

Lemma messages_saveMessages f st : messages (saveMessages f st) = messages st.
Proof. by destruct f. Qed.

Lemma queue_saveMessages f st : queue (saveMessages f st) = queue st.
Proof. by destruct f. Qed.

Lemma messages_file_saveMessages st :
  messages_file (saveMessages true st) = Some (queue (saveMessages true st)).
Proof. done. Qed.

(** What a run that reaches the transport has seen. *)
Lemma select_inr st p :
  select st = inr p ->
  exists rest m,
    unsentMessages st = messageToSend p :: rest
    /\ heap st !! messageToSend p = Some m
    /\ Message.sent m = false
    /\ transporter st = true
    /\ phoneNumber (config st) <> ""
    /\ smsEmail p = phoneToSmsEmail (phoneNumber (config st)) (carrier (config st))
    /\ mailText p = Message.text m.
Proof.
  unfold select. destruct (unsentMessages st) as [|r rest] eqn:Hu; [discriminate|].
  destruct (transporter st); simpl; [|discriminate].
  destruct (String.eqb_spec (phoneNumber (config st)) ""); [discriminate|].
  intros [= <-]. simpl.
  assert (Hin : In r (unsentMessages st)) by (rewrite Hu; by left).
  apply filter_In in Hin as [_ Hr]. apply is_unsent_Some in Hr as (m & Hm & Hs).
  exists rest, m. rewrite Hm. done.
Qed.



End StoreLemmas.

(** ** Dispatcher *)




(** C2. When a run has selected a message and the transport rejects the
    mail, the run reports failure with the error's message and the state is
    the one before the run: the selected message still has [sent = false]
    and no [sentAt], and the next run selects it again. *)
Theorem rejected_delivery_keeps_message st p reason now fs_ok :
  wf st -> select st = inr p ->
  sendDailyMessage (Rejected reason) now fs_ok st = (st, mkResult false reason)
  /\ (exists m,
        heap st !! messageToSend p = Some m
        /\ Message.sent m = false
        /\ Message.sentAt m = None
        /\ oldestUnsent (fst (sendDailyMessage (Rejected reason) now fs_ok st)) = Some m)
  /\ select (fst (sendDailyMessage (Rejected reason) now fs_ok st)) = inr p.
Proof.
  intros (_ & _ & Hstamp) Hsel.
  assert (Hrun : sendDailyMessage (Rejected reason) now fs_ok st
                 = (st, mkResult false reason))
    by (unfold sendDailyMessage; by rewrite Hsel).
  rewrite Hrun. simpl. split; [done|]. split; [|done].
  destruct (select_inr _ _ Hsel) as (rest & m & Hu & Hm & Hs & _).
  exists m. unfold oldestUnsent. rewrite Hu. repeat split; try done.
  rewrite Forall_forall in Hstamp.
  assert (Hin : m ∈ heap st) by (apply list_elem_of_lookup; eauto).
  specialize (Hstamp m Hin).
  rewrite Hs in Hstamp. symmetry in Hstamp. apply bool_decide_eq_false in Hstamp.
  destruct (Message.sentAt m); [|done]. exfalso. apply Hstamp. eauto.
Qed.

Lemma rejected_delivery_keeps_message_witness :
  sendDailyMessage (Rejected "ETIMEDOUT") 1700000086400 true st_hello
  = (st_hello, mkResult false "ETIMEDOUT")
  /\ select (fst (sendDailyMessage (Rejected "ETIMEDOUT") 1700000086400 true st_hello))
     = inr (mkPending 0 "5551234567@tmomail.net" "Hello").
Proof.
  destruct (rejected_delivery_keeps_message st_hello
              (mkPending 0 "5551234567@tmomail.net" "Hello")
              "ETIMEDOUT" 1700000086400 true) as (H1 & _ & H3).
  - apply (bool_decide_unpack _). vm_compute. reflexivity.
  - vm_compute. reflexivity.
  - split; [exact H1 | exact H3].
Defined.

(** ** Well-formedness is kept by every request *)

Section Wf.

Lemma wf_initial tr : wf (initial tr).
Proof. repeat split; simpl; constructor. Qed.

Lemma wf_saveMessages f st : wf st -> wf (saveMessages f st).
Proof. by destruct f. Qed.

Lemma wf_addMessage t1 t2 f body_text st :
  wf st -> wf (fst (addMessage t1 t2 f body_text st)).
Proof.
  intros (Hb & Hn & Hs). simpl. apply wf_saveMessages.
  split; [|split]; simpl.
  - apply Forall_app. split.
    + eapply Forall_impl; [exact Hb|]. intros r Hr. simpl in Hr.
      rewrite length_app. simpl. lia.
    + apply Forall_singleton. rewrite length_app. simpl. lia.
  - apply NoDup_app. split; [done|]. split; [|apply NoDup_singleton].
    intros r Hr Hr'. apply list_elem_of_singleton in Hr'. subst r.
    rewrite Forall_forall in Hb. specialize (Hb _ Hr). simpl in Hb. lia.
  - apply Forall_app. split; [done|]. by apply Forall_singleton.
Qed.

Lemma Forall_List_filter {A} (P : A -> Prop) (f : A -> bool) l :
  Forall P l -> Forall P (List.filter f l).
Proof.
  induction 1 as [|x l Hx Hl IH]; simpl; [constructor|].
  destruct (f x); [by constructor | done].
Qed.

Lemma NoDup_List_filter {A} (f : A -> bool) (l : list A) :
  NoDup l -> NoDup (List.filter f l).
Proof.
  induction 1 as [|x l Hx Hl IH]; simpl; [constructor|].
  destruct (f x); [|done]. constructor; [|done].
  intros Hin. apply Hx. apply list_elem_of_In in Hin.
  apply filter_In in Hin as [Hin _]. by apply list_elem_of_In.
Qed.

Lemma wf_deleteMessage f params_id st :
  wf st -> wf (fst (deleteMessage f params_id st)).
Proof.
  intros (Hb & Hn & Hs). simpl. apply wf_saveMessages.
  split; [|split]; simpl; [by apply Forall_List_filter | by apply NoDup_List_filter | done].
Qed.

Lemma wf_complete p outcome now f st :
  wf st -> wf (fst (complete p outcome now f st)).
Proof.
  intros (Hb & Hn & Hs). destruct outcome; simpl; [|done].
  apply wf_saveMessages. split; [|split]; simpl; [|done|].
  - by rewrite length_alter.
  - rewrite Forall_lookup in Hs |- *. intros i m Hm.
    destruct (decide (messageToSend p = i)) as [Heq|Hne].
    + rewrite Heq, list_lookup_alter_eq in Hm.
      destruct (heap st !! i); [|done]. by injection Hm as <-.
    + rewrite list_lookup_alter_ne in Hm by done. eauto.
Qed.

Lemma wf_sendDailyMessage outcome now f st :
  wf st -> wf (fst (sendDailyMessage outcome now f st)).
Proof.
  intros H. unfold sendDailyMessage. destruct (select st); [done|].
  by apply wf_complete.
Qed.

Lemma wf_apply_op st o : wf st -> wf (apply_op st o).
Proof.
  destruct o; simpl;
    [apply wf_addMessage | apply wf_deleteMessage | apply wf_sendDailyMessage].
Qed.

Lemma wf_run_ops ops st : wf st -> wf (run_ops ops st).
Proof.
  unfold run_ops. revert st. induction ops as [|o ops IH]; intros st H; simpl; [done|].
  apply IH. by apply wf_apply_op.
Qed.

(** Every state the requests can lead to from start-up is well formed. *)
Lemma wf_reachable ops transporter_ready :
  wf (run_ops ops (initial transporter_ready)).
Proof. apply wf_run_ops, wf_initial. Qed.

End Wf.

(** ** Message queue *)

Section QueueLemmas.

Lemma queue_push (h : list Message.t) (ms : list nat) (m : Message.t) :
  Forall (fun r => (r < length h)%nat) ms ->
  omap (fun r => (h ++ [m]) !! r) (ms ++ [length h])
  = omap (fun r => h !! r) ms ++ [m].
Proof.
  intros Hb. rewrite omap_app. f_equal.
  - induction Hb as [|r ms Hr _ IH]; simpl; [done|].
    rewrite lookup_app_l by done.
    destruct (h !! r); [f_equal; exact IH | exact IH].
  - simpl. by rewrite list_lookup_middle.
Qed.

Lemma queue_filter (h : list Message.t) (target : option Z) (ms : list nat) :
  omap (fun r => h !! r) (List.filter (id_differs h target) ms)
  = List.filter (fun m => Js.strict_ne (Message.id m) target)
                (omap (fun r => h !! r) ms).
Proof.
  induction ms as [|r ms IH]; simpl; [done|].
  unfold id_differs at 1. destruct (h !! r) as [m|] eqn:Hr; simpl.
  - destruct (Js.strict_ne (Message.id m) target); simpl; [|exact IH].
    rewrite Hr. f_equal. exact IH.
  - rewrite Hr. exact IH.
Qed.

Lemma filter_all_true {A} (f : A -> bool) l :
  (forall x, f x = true) -> List.filter f l = l.
Proof.
  intros Hf. induction l as [|x l IH]; simpl; [done|]. by rewrite Hf, IH.
Qed.

End QueueLemmas.

(** C6, as the specification states it, fails: the handler checks nothing,
    so the empty text is queued like any other. *)
Lemma empty_text_is_queued :
  ~ rejects_empty_text 1700000000000 1700000000000 true (initial true).
Proof.
  unfold rejects_empty_text. simpl. intros [[e He] _]. discriminate He.
Qed.

(** C6, amended. Every enqueue, the one of the empty text too, appends an
    unsent message with that text to the queue, answers with success and
    the new message, and the queue with the message is what is written to
    the messages file when the write goes through. *)
Theorem addMessage_accepts_any_text now_id now_created fs_ok body_text st :
  wf st ->
  let newMessage := Message.mk now_id body_text false now_created None in
  let st' := fst (addMessage now_id now_created fs_ok body_text st) in
  queue st' = queue st ++ [newMessage]
  /\ snd (addMessage now_id now_created fs_ok body_text st) = Json true newMessage
  /\ (fs_ok = true -> messages_file st' = Some (queue st'))
  /\ wf st'.
Proof.
  intros Hwf. pose proof Hwf as (Hb & _). simpl.
  rewrite queue_saveMessages. unfold queue at 1. simpl.
  rewrite queue_push by done.
  split; [done|]. split; [done|]. split.
  - intros ->. apply messages_file_saveMessages.
  - apply (wf_addMessage now_id now_created fs_ok body_text st Hwf).
Qed.

Lemma addMessage_accepts_any_text_witness :
  queue (fst (addMessage 1700000000000 1700000000000 true "" (initial true)))
  = [Message.mk 1700000000000 "" false 1700000000000 None]
  /\ snd (addMessage 1700000000000 1700000000000 true "" (initial true))
     = Json true (Message.mk 1700000000000 "" false 1700000000000 None).
Proof.
  destruct (addMessage_accepts_any_text 1700000000000 1700000000000 true ""
              (initial true)) as (Hq & Hr & _).
  - apply (bool_decide_unpack _). vm_compute. reflexivity.
  - split; [exact Hq | exact Hr].
Defined.

(** The ids in the store follow the clock readings of the enqueues. *)
Lemma heap_ids_apply_op st o :
  map Message.id (heap (apply_op st o))
  = map Message.id (heap st) ++ add_times [o].
Proof.
  destruct o as [t1 t2 f body_text | f params_id | outcome now f]; simpl.
  - rewrite heap_saveMessages. simpl. by rewrite map_app.
  - rewrite heap_saveMessages. simpl. by rewrite app_nil_r.
  - rewrite app_nil_r. unfold sendDailyMessage.
    destruct (select st) as [res|p]; [done|].
    destruct outcome; simpl; [|done].
    rewrite heap_saveMessages. simpl.
    apply list_eq. intros i. rewrite !list_lookup_fmap.
    destruct (decide (messageToSend p = i)) as [<-|Hne].
    + rewrite list_lookup_alter_eq. by destruct (heap st !! messageToSend p).
    + by rewrite list_lookup_alter_ne.
Qed.

Lemma add_times_cons o ops : add_times (o :: ops) = add_times [o] ++ add_times ops.
Proof. unfold add_times. simpl. by destruct o. Qed.

Lemma heap_ids_run_ops ops st :
  map Message.id (heap (run_ops ops st))
  = map Message.id (heap st) ++ add_times ops.
Proof.
  unfold run_ops. revert st. induction ops as [|o ops IH]; intros st.
  - simpl. by rewrite app_nil_r.
  - cbn [fold_left].
    rewrite IH, heap_ids_apply_op, (add_times_cons o ops). by rewrite <- app_assoc.
Qed.

(** C7, as the specification states it, fails: two enqueues handled within
    the same millisecond read the same [Date.now()] and get the same id. *)
Lemma same_millisecond_same_id :
  ~ ids_strictly_increasing
      (run_ops [OpAdd 1700000000000 1700000000000 true "first";
                OpAdd 1700000000000 1700000000001 true "second"] (initial true)).
Proof.
  unfold ids_strictly_increasing. simpl. intros H.
  apply StronglySorted_inv in H as [_ H].
  apply Forall_inv in H. lia.
Qed.

(** C7, amended. The id of a message is the reading of [Date.now()] taken
    by its enqueue, so over any sequence of requests the ids given out are
    those readings in order; when the readings strictly increase, every new
    id is above all the ids given out before, and no two queued messages
    share an id. *)
Theorem ids_follow_clock ops transporter_ready :
  StronglySorted Z.lt (add_times ops) ->
  let st := run_ops ops (initial transporter_ready) in
  map Message.id (heap st) = add_times ops
  /\ ids_strictly_increasing st.
Proof.
  intros Hs. simpl. unfold ids_strictly_increasing.
  rewrite heap_ids_run_ops. simpl. done.
Qed.

Lemma ids_follow_clock_witness :
  ids_strictly_increasing
    (run_ops [OpAdd 1700000000000 1700000000000 true "first";
              OpDelete true "1700000000000";
              OpAdd 1700000000001 1700000000001 true "second"] (initial true)).
Proof.
  apply (ids_follow_clock
           [OpAdd 1700000000000 1700000000000 true "first";
            OpDelete true "1700000000000";
            OpAdd 1700000000001 1700000000001 true "second"] true).
  simpl. repeat constructor.
Defined.

(** C9, as the specification states it, fails: the reply is the same when
    no message has the id. *)
Lemma delete_of_absent_id_reports_success :
  ~ reports_existence true "5" (initial true).
Proof. unfold reports_existence. simpl. discriminate. Qed.

(** C9, amended. A delete always answers with success, whether or not a
    message with the id was queued; when none was, the queue is what it was
    before. *)
Theorem deleteMessage_always_succeeds fs_ok params_id st :
  snd (deleteMessage fs_ok params_id st) = Json true tt
  /\ (id_queued params_id st = false ->
      queue (fst (deleteMessage fs_ok params_id st)) = queue st).
Proof.
  split; [done|]. intros Hno. simpl. rewrite queue_saveMessages.
  unfold queue at 1. simpl. rewrite queue_filter. fold (queue st).
  unfold id_queued in Hno. induction (queue st) as [|m q IH]; simpl; [done|].
  simpl in Hno. apply orb_false_iff in Hno as [Hm Hq].
  apply negb_false_iff in Hm. rewrite Hm. f_equal. by apply IH.
Qed.

Lemma deleteMessage_always_succeeds_witness :
  snd (deleteMessage true "5" st_hello) = Json true tt
  /\ queue (fst (deleteMessage true "5" st_hello)) = queue st_hello.
Proof.
  destruct (deleteMessage_always_succeeds true "5" st_hello) as [H1 H2].
  split; [exact H1|]. apply H2. vm_compute. reflexivity.
Defined.

(** C10. A delete leaves in the queue exactly the messages whose id
    differs from [parseInt] of the parameter, in their order, so every
    message with that id goes in one call; it answers with success in every
    case; and when the parameter is not a number nothing is removed. *)
Theorem deleteMessage_filters_by_id fs_ok params_id st :
  let st' := fst (deleteMessage fs_ok params_id st) in
  queue st'
  = List.filter (fun m => Js.strict_ne (Message.id m) (Js.parseInt params_id))
                (queue st)
  /\ Forall (fun m => Some (Message.id m) <> Js.parseInt params_id) (queue st')
  /\ heap st' = heap st
  /\ snd (deleteMessage fs_ok params_id st) = Json true tt
  /\ (Js.parseInt params_id = None -> messages st' = messages st /\ queue st' = queue st).
Proof.
  simpl. rewrite queue_saveMessages, heap_saveMessages, messages_saveMessages.
  assert (Hq : queue (with_messages
                        (List.filter (id_differs (heap st) (Js.parseInt params_id))
                                     (messages st)) st)
               = List.filter (fun m => Js.strict_ne (Message.id m) (Js.parseInt params_id))
                             (queue st))
    by (unfold queue; simpl; apply queue_filter).
  rewrite Hq. simpl.
  repeat split; try done.
  - apply Forall_forall. intros m Hm. apply list_elem_of_In, filter_In in Hm as [_ Hm].
    unfold Js.strict_ne in Hm. destruct (Js.parseInt params_id) as [n|]; [|done].
    apply negb_true_iff, Z.eqb_neq in Hm. congruence.
  - rewrite H. apply filter_all_true. intros r. unfold id_differs.
    by destruct (heap st !! r).
  - rewrite H. by apply filter_all_true.
Qed.

Lemma deleteMessage_filters_by_id_witness :
  Js.parseInt "abc" = None
  /\ queue (fst (deleteMessage true "abc" st_hello)) = queue st_hello
  /\ snd (deleteMessage true "abc" st_hello) = Json true tt.
Proof.
  destruct (deleteMessage_filters_by_id true "abc" st_hello)
    as (_ & _ & _ & Hr & Hnan).
  assert (Hp : Js.parseInt "abc" = None) by (vm_compute; reflexivity).
  split; [exact Hp|]. split; [exact (proj2 (Hnan Hp)) | exact Hr].
Defined.

(** ** Selection order *)

Section Order.

Lemma StronglySorted_List_filter {A} (R : A -> A -> Prop) (f : A -> bool) l :
  StronglySorted R l -> StronglySorted R (List.filter f l).
Proof.
  induction 1 as [|x l Hl IH Hx]; simpl; [constructor|].
  destruct (f x); [|done]. constructor; [done|]. by apply Forall_List_filter.
Qed.

Lemma StronglySorted_lookup_lt {A} (R : A -> A -> Prop) (l : list A) i j x y :
  StronglySorted R l -> l !! i = Some x -> l !! j = Some y -> (i < j)%nat -> R x y.
Proof.
  intros Hs. revert i j. induction Hs as [|z l Hl IH Hz]; intros i j Hi Hj Hlt.
  - by rewrite lookup_nil in Hi.
  - destruct j as [|j]; [lia|]. simpl in Hj. destruct i as [|i]; simpl in Hi.
    + injection Hi as <-. rewrite Forall_forall in Hz. apply Hz.
      apply list_elem_of_lookup. eauto.
    + apply (IH i j); [done | done | lia].
Qed.

Lemma allocation_ordered_apply_op st o :
  allocation_ordered st -> allocation_ordered (apply_op st o).
Proof.
  intros [Hs Hb].
  destruct o as [t1 t2 f body_text | f params_id | outcome now f]; simpl.
  - unfold allocation_ordered.
    rewrite messages_saveMessages, heap_saveMessages. simpl. split.
    + apply StronglySorted_app_2; [|done|repeat constructor].
      intros r1 r2 Hr1 Hr2. apply list_elem_of_singleton in Hr2. subst r2.
      rewrite Forall_forall in Hb. by apply Hb.
    + apply Forall_app. split.
      * eapply Forall_impl; [exact Hb|]. intros r Hr. simpl in Hr.
        rewrite length_app. simpl. lia.
      * apply Forall_singleton. rewrite length_app. simpl. lia.
  - unfold allocation_ordered.
    rewrite messages_saveMessages, heap_saveMessages. simpl. split.
    + by apply StronglySorted_List_filter.
    + by apply Forall_List_filter.
  - unfold sendDailyMessage. destruct (select st) as [res|p]; [done|].
    destruct outcome; simpl; [|done]. unfold allocation_ordered.
    rewrite messages_saveMessages, heap_saveMessages. simpl.
    by rewrite length_alter.
Qed.

Lemma allocation_ordered_run_ops ops st :
  allocation_ordered st -> allocation_ordered (run_ops ops st).
Proof.
  unfold run_ops. revert st. induction ops as [|o ops IH]; intros st H; [done|].
  cbn [fold_left]. apply IH. by apply allocation_ordered_apply_op.
Qed.

Lemma queue_elem st m :
  m ∈ queue st <-> exists r, In r (messages st) /\ heap st !! r = Some m.
Proof.
  unfold queue. rewrite list_elem_of_omap. split.
  - intros (r & Hr & Hm). exists r. by rewrite <- list_elem_of_In.
  - intros (r & Hr & Hm). exists r. by rewrite list_elem_of_In.
Qed.

End Order.

Lemma queue_unsent (h : list Message.t) (ms : list nat) :
  omap (fun r => h !! r) (List.filter (is_unsent h) ms)
  = List.filter (fun m => negb (Message.sent m)) (omap (fun r => h !! r) ms).
Proof.
  induction ms as [|r ms IH]; simpl; [done|].
  unfold is_unsent at 1. destruct (h !! r) as [m|] eqn:Hr; simpl; [|exact IH].
  destruct (negb (Message.sent m)); simpl; [|exact IH].
  rewrite Hr. f_equal. exact IH.
Qed.

Lemma oldestUnsent_first st :
  oldestUnsent st = head (List.filter (fun m => negb (Message.sent m)) (queue st)).
Proof.
  unfold queue. rewrite <- queue_unsent. unfold oldestUnsent.
  fold (unsentMessages st). destruct (unsentMessages st) as [|r rest] eqn:Hu; [done|].
  assert (Hr : In r (unsentMessages st)) by (rewrite Hu; by left).
  apply filter_In in Hr as [_ Hr]. apply is_unsent_Some in Hr as (m & Hm & _).
  simpl. by rewrite Hm.
Qed.

Lemma selects_lowest_id_monotone_clock ops transporter_ready :
  StronglySorted Z.le (add_times ops) ->
  selects_lowest_id (run_ops ops (initial transporter_ready)).
Proof.
  intros Hclock. unfold selects_lowest_id.
  set (st := run_ops ops (initial transporter_ready)).
  assert (Hids : StronglySorted Z.le (map Message.id (heap st)))
    by (unfold st; by rewrite heap_ids_run_ops).
  assert (Hord : allocation_ordered st).
  { apply allocation_ordered_run_ops. split; simpl; constructor. }
  destruct Hord as [Hrefs _].
  assert (Hsel : StronglySorted lt (unsentMessages st))
    by (by apply StronglySorted_List_filter).
  assert (Hmem : forall r m', In r (messages st) -> heap st !! r = Some m' ->
                              Message.sent m' = false -> In r (unsentMessages st)).
  { intros r m' Hr Hm' Hs'. apply filter_In. split; [done|].
    apply is_unsent_Some. eauto. }
  unfold oldestUnsent. destruct (unsentMessages st) as [|r rest] eqn:Hu.
  - intros m' Hm'. apply queue_elem in Hm' as (r' & Hr' & Hm').
    destruct (Message.sent m') eqn:Hs'; [done|].
    destruct (Hmem r' m' Hr' Hm' Hs').
  - assert (Hr : In r (unsentMessages st)) by (rewrite Hu; by left).
    apply filter_In in Hr as [Hr Hun].
    apply is_unsent_Some in Hun as (m & Hm & Hs). rewrite Hm.
    split; [apply queue_elem; eauto|]. split; [done|].
    intros m' Hm' Hs'. apply queue_elem in Hm' as (r' & Hr' & Hm').
    destruct (Hmem r' m' Hr' Hm' Hs') as [<-|Hrest].
    + assert (m' = m) by congruence. subst m'. lia.
    + apply StronglySorted_inv in Hsel as [_ Hlt].
      rewrite Forall_forall in Hlt.
      assert (Hrr' : (r < r')%nat) by (apply Hlt; by apply list_elem_of_In).
      apply (StronglySorted_lookup_lt Z.le (map Message.id (heap st)) r r');
        [done | | | done].
      * by rewrite list_lookup_fmap, Hm.
      * by rewrite list_lookup_fmap, Hm'.
Qed.

(** C8, as the specification states it, fails: the selection goes by the
    position in the array, and the ids are readings of the wall clock; when
    the clock was set back between two enqueues, the message enqueued first
    is selected although the second one has the lower id. *)
Lemma clock_set_back_breaks_id_order :
  ~ selects_lowest_id
      (run_ops [OpAdd 1700000000007 1700000000007 true "first";
                OpAdd 1700000000000 1700000000000 true "second"] (initial true)).
Proof.
  unfold selects_lowest_id. simpl. intros (_ & _ & H).
  specialize (H (Message.mk 1700000000000 "second" false 1700000000000 None)).
  simpl in H. assert (1700000000007 <= 1700000000000) as Hle; [|lia].
  apply H; [|done]. apply list_elem_of_In. simpl. auto.
Qed.

(** C8, amended. After any sequence of enqueues and deletes on the empty
    queue, also with dispatcher runs in between, the selection of the
    dispatcher is the first unsent message in the order of the queue, which
    is the order of enqueueing, or nothing when there is none, whatever the
    order of the deletes; when the readings of [Date.now()] taken by the
    enqueues never decrease, that message has the lowest id among the
    unsent ones. *)
Theorem oldestUnsent_first_in_queue ops transporter_ready :
  let st := run_ops ops (initial transporter_ready) in
  oldestUnsent st = head (List.filter (fun m => negb (Message.sent m)) (queue st))
  /\ allocation_ordered st
  /\ (StronglySorted Z.le (add_times ops) -> selects_lowest_id st).
Proof.
  simpl. split; [apply oldestUnsent_first|]. split.
  - apply allocation_ordered_run_ops. split; simpl; constructor.
  - apply selects_lowest_id_monotone_clock.
Qed.

Lemma oldestUnsent_first_in_queue_witness :
  StronglySorted Z.le (add_times sample_ops)
  /\ oldestUnsent (run_ops sample_ops (initial true))
     = Some (Message.mk 1700000000007 "third" false 1700000000007 None)
  /\ selects_lowest_id (run_ops sample_ops (initial true)).
Proof.
  assert (Hclock : StronglySorted Z.le (add_times sample_ops)).
  { simpl. repeat constructor; lia. }
  destruct (oldestUnsent_first_in_queue sample_ops true) as (Hfirst & _ & Hlow).
  split; [exact Hclock|]. split; [|exact (Hlow Hclock)].
  rewrite Hfirst. vm_compute. reflexivity.
Defined.

(** ** Overlapping runs *)

Section Overlap.

Lemma unsentMessages_mark st r now f :
  unsentMessages (saveMessages f (with_heap (alter (Message.mark_sent now) r (heap st)) st))
  = List.filter (fun r' => negb (Nat.eqb r' r)) (unsentMessages st).
Proof.
  unfold unsentMessages. rewrite heap_saveMessages, messages_saveMessages. simpl.
  induction (messages st) as [|r' ms IH]; simpl; [done|].
  rewrite is_unsent_alter_mark.
  destruct (is_unsent (heap st) r'); simpl; [|done].
  destruct (negb (Nat.eqb r' r)); [by rewrite IH | done].
Qed.

Lemma select_single st r m :
  unsentMessages st = [r] -> heap st !! r = Some m ->
  transporter st = true -> phoneNumber (config st) <> "" ->
  select st
  = inr (mkPending r
           (phoneToSmsEmail (phoneNumber (config st)) (carrier (config st)))
           (Message.text m)).
Proof.
  intros Hu Hm Ht Hp. unfold select. rewrite Hu, Ht, Hm. simpl.
  by destruct (String.eqb_spec (phoneNumber (config st)) "").
Qed.

Lemma select_after_mark st r now f :
  unsentMessages st = [r] ->
  select (saveMessages f (with_heap (alter (Message.mark_sent now) r (heap st)) st))
  = inl NoMessagesQueued.
Proof.
  intros Hu. unfold select. rewrite unsentMessages_mark, Hu. simpl.
  by rewrite Nat.eqb_refl.
Qed.

End Overlap.

(** C3, as the specification states it, fails: a trigger that arrives
    while another run awaits the transport selects the same message, and
    both runs report success for it. *)
Lemma overlapping_runs_are_not_single_flight :
  ~ single_flight (overlapping 1700000086400 1700000086401 true true)
                  1700000000000 st_hello.
Proof. unfold single_flight. vm_compute. discriminate. Qed.

(** C3, amended. On a state with exactly one unsent message in the queue,
    a configured transport and a destination: two runs one after the other
    end in one success for that message and then in "No messages queued";
    the dispatcher has no single-flight guard, so of two runs of which the
    second starts while the first awaits the transport, both select that
    message and both report success for it once the transport delivers. *)
Theorem runs_on_single_message st r m t1 t2 f1 f2 :
  unsentMessages st = [r] -> heap st !! r = Some m ->
  transporter st = true -> phoneNumber (config st) <> "" ->
  outcomes (exec (back_to_back t1 t2 f1 f2) st) = [(0, Sent); (1, NoMessagesQueued)]%nat
  /\ sent_runs_for_id (Message.id m) (exec (back_to_back t1 t2 f1 f2) st) = [0]%nat
  /\ outcomes (exec (overlapping t1 t2 f1 f2) st) = [(0, Sent); (1, Sent)]%nat
  /\ sent_runs_for_id (Message.id m) (exec (overlapping t1 t2 f1 f2) st) = [0; 1]%nat.
Proof.
  intros Hu Hm Ht Hp.
  pose proof (select_single st r m Hu Hm Ht Hp) as Hsel.
  set (p := mkPending r _ _) in Hsel.
  assert (Hback : exec (back_to_back t1 t2 f1 f2) st
                  = mkSys (saveMessages f1
                             (with_heap (alter (Message.mark_sent t1) r (heap st)) st))
                          ∅
                          [mkCompletion 0 Sent (Some r);
                           mkCompletion 1 NoMessagesQueued None]).
  { unfold exec, back_to_back. cbn [fold_left].
    unfold step at 4. cbn [sys_state awaiting completions]. rewrite Hsel.
    unfold step at 3. cbn [sys_state awaiting completions].
    rewrite lookup_insert_eq. cbn [complete messageToSend p].
    rewrite delete_insert_eq, delete_empty.
    unfold step at 2. cbn [sys_state awaiting completions].
    rewrite (select_after_mark st r t1 f1 Hu).
    unfold step. cbn [sys_state awaiting completions].
    rewrite lookup_empty. done. }
  assert (Hover : exec (overlapping t1 t2 f1 f2) st
                  = mkSys (saveMessages f2
                             (with_heap
                                (alter (Message.mark_sent t2) r
                                   (alter (Message.mark_sent t1) r (heap st)))
                                (saveMessages f1
                                   (with_heap (alter (Message.mark_sent t1) r (heap st)) st))))
                          ∅
                          [mkCompletion 0 Sent (Some r);
                           mkCompletion 1 Sent (Some r)]).
  { unfold exec, overlapping. cbn [fold_left].
    unfold step at 4. cbn [sys_state awaiting completions]. rewrite Hsel.
    unfold step at 3. cbn [sys_state awaiting completions]. rewrite Hsel.
    unfold step at 2. cbn [sys_state awaiting completions].
    rewrite lookup_insert_ne by done. rewrite lookup_insert_eq.
    cbn [complete messageToSend p].
    unfold step. cbn [sys_state awaiting completions].
    rewrite lookup_delete_ne by done. rewrite lookup_insert_eq.
    cbn [complete messageToSend p]. rewrite heap_saveMessages.
    cbn [heap with_heap]. reflexivity. }
  rewrite Hback, Hover. unfold outcomes, sent_runs_for_id.
  cbn [completions sys_state map List.filter result selected success Sent
       NoMessagesQueued completed_run andb mbind option_bind].
  rewrite !heap_saveMessages. cbn [heap with_heap].
  rewrite !list_lookup_alter_eq, Hm. cbn [fmap option_fmap option_map Message.mark_sent Message.id].
  rewrite !bool_decide_true by done. done.
Qed.

Lemma runs_on_single_message_witness :
  outcomes (exec (back_to_back 1700000086400 1700086400000 true true) st_hello)
  = [(0, Sent); (1, NoMessagesQueued)]%nat
  /\ sent_runs_for_id 1700000000000
       (exec (overlapping 1700000086400 1700000086401 true true) st_hello)
     = [0; 1]%nat.
Proof.
  destruct (runs_on_single_message st_hello 0
              (Message.mk 1700000000000 "Hello" false 1700000000000 None)
              1700000086400 1700086400000 true true) as (H1 & _).
  - reflexivity.
  - reflexivity.
  - reflexivity.
  - discriminate.
  - split; [exact H1|].
    destruct (runs_on_single_message st_hello 0
                (Message.mk 1700000000000 "Hello" false 1700000000000 None)
                1700000086400 1700000086401 true true) as (_ & _ & _ & H4).
    + reflexivity.
    + reflexivity.
    + reflexivity.
    + discriminate.
    + exact H4.
Defined.

(** ** Scheduler *)

(** C5, as the specification states it, fails: whatever [cron.schedule]
    makes of the expression, the job armed before the update is stopped
    first, so it is not kept on an error. *)
Lemma malformed_sendTime_drops_schedule :
  ~ exists cron_check,
      keeps_schedule_on_error cron_check "+15551234567" "25:99" "att" true st_armed.
Proof.
  intros [cron_check H]. unfold keeps_schedule_on_error in H.
  cbv in H. destruct (cron_check "99 25 * * *") as [err|].
  - destruct H as [_ H]. discriminate H.
  - destruct H as [[e He] _]. discriminate He.
Qed.

(** C5, amended. A config update, also one with a malformed send time,
    replaces the config, writes it to the config file when the write goes
    through, and stops the job armed before; then, when [cron.schedule]
    throws on the expression built from the send time, the update answers
    with status 500 and that message and no job is armed any more, and
    otherwise it answers with success and a job for that expression is
    armed. *)
Theorem postConfig_stops_previous_job
    cron_check body_phoneNumber body_sendTime body_carrier fs_ok st j job :
  currentCronJob st = Some j -> jobs st !! j = Some job ->
  let c := mkConfig body_phoneNumber
             (or_else body_sendTime "12:00") (or_else body_carrier "att") in
  let run := postConfig cron_check body_phoneNumber body_sendTime body_carrier fs_ok st in
  config (fst run) = c
  /\ (fs_ok = true -> config_file (fst run) = Some c)
  /\ jobs (fst run) !! j = Some (stop job)
  /\ match cron_check (cronTime (sendTime c)) with
     | Some err =>
         snd run = Status500 err
         /\ currentCronJob (fst run) = Some j
         /\ armed (fst run) = None
     | None =>
         snd run = Json true c
         /\ armed (fst run) = Some (mkCronJob (cronTime (sendTime c)) true)
     end.
Proof.
  intros Hcur Hjob.
  assert (Hlt : (j < length (jobs st))%nat) by (by eapply lookup_lt_Some).
  unfold postConfig, setupSchedule, armed.
  destruct fs_ok; simpl; rewrite Hcur; simpl;
    destruct (cron_check (cronTime (or_else body_sendTime "12:00"))) as [err|]; simpl.
  all: rewrite ?Hcur; simpl.
  all: rewrite ?(lookup_app_l _ _ j) by (rewrite length_alter; lia).
  all: rewrite ?(list_lookup_middle _ [] _ (length (alter stop j (jobs st)))) by done.
  all: rewrite list_lookup_alter_eq, Hjob; simpl.
  all: repeat split; done.
Qed.

Lemma postConfig_stops_previous_job_witness :
  cronTime "25:99" = "99 25 * * *"
  /\ snd (postConfig sample_cron_check "+15551234567" "25:99" "att" true st_armed)
     = Status500 "99 is a invalid expression for minute"
  /\ armed st_armed = Some (mkCronJob "00 12 * * *" true)
  /\ armed (fst (postConfig sample_cron_check "+15551234567" "25:99" "att" true st_armed))
     = None.
Proof.
  destruct (postConfig_stops_previous_job sample_cron_check
              "+15551234567" "25:99" "att" true st_armed
              0%nat (mkCronJob "00 12 * * *" true))
    as (_ & _ & _ & H).
  - reflexivity.
  - reflexivity.
  - destruct H as (Hr & _ & Ha).
    split; [reflexivity|]. split; [exact Hr|]. split; [reflexivity | exact Ha].
Defined.

(** ** Address resolver *)

Lemma CARRIER_DOMAINS_nonempty carrier domain :
  CARRIER_DOMAINS !! carrier = Some domain -> domain <> "".
Proof.
  assert (H : map_Forall (fun _ d => d <> "") CARRIER_DOMAINS).
  { apply (bool_decide_unpack _). vm_compute. reflexivity. }
  apply H.
Qed.

(** For a carrier tag that is not the name of a property inherited from
    [Object.prototype], the address is the digits of the phone number, less
    one leading [1], then [@] and the domain of the tag, or the one of
    [att] when the table has no such tag. *)
Lemma phoneToSmsEmail_resolves phoneNumber carrier :
  Js.object_prototype !! carrier = None ->
  phoneToSmsEmail phoneNumber carrier
  = Js.replace_leading_1 (Js.replace_non_digits phoneNumber)
    +:+ "@" +:+ default "txt.att.net" (CARRIER_DOMAINS !! carrier).
Proof.
  intros Hproto. unfold phoneToSmsEmail, Js.get. rewrite Hproto.
  destruct (CARRIER_DOMAINS !! carrier) as [domain|] eqn:Hc; simpl.
  - apply CARRIER_DOMAINS_nonempty in Hc.
    destruct (String.eqb_spec domain ""); [done|]. done.
  - reflexivity.
Qed.

(** C4 at the carrier tag [toString]: the table has no such tag, yet the
    lookup finds the method every object inherits, the default is not
    taken, and the address ends in the text of that method. *)
Theorem phoneToSmsEmail_inherited_property :
  CARRIER_DOMAINS !! "toString" = None
  /\ phoneToSmsEmail "+15551234567" "toString"
     = "5551234567@function toString() { [native code] }"
  /\ phoneToSmsEmail "+15551234567" "toString" <> "5551234567@txt.att.net".
Proof.
  split; [vm_compute; reflexivity|].
  assert (H : phoneToSmsEmail "+15551234567" "toString"
              = "5551234567@function toString() { [native code] }")
    by (vm_compute; reflexivity).
  split; [exact H|]. rewrite H. discriminate.
Qed.

(** * Further properties of the code *)

(** ** Dispatcher runs, one after the other *)

Lemma complete_frame p outcome now f st :
  transporter (fst (complete p outcome now f st)) = transporter st
  /\ config (fst (complete p outcome now f st)) = config st
  /\ messages (fst (complete p outcome now f st)) = messages st.
Proof. destruct outcome, f; done. Qed.

Lemma sendDailyMessage_frame outcome now f st :
  transporter (fst (sendDailyMessage outcome now f st)) = transporter st
  /\ config (fst (sendDailyMessage outcome now f st)) = config st
  /\ messages (fst (sendDailyMessage outcome now f st)) = messages st.
Proof.
  unfold sendDailyMessage. destruct (select st); [done|]. apply complete_frame.
Qed.

Lemma filter_other_than (r : nat) (l : list nat) :
  ~ In r l -> List.filter (fun r' => negb (Nat.eqb r' r)) l = l.
Proof.
  induction l as [|x l IH]; simpl; [done|]. intros Hnot.
  destruct (Nat.eqb_spec x r) as [->|Hne]; simpl.
  - exfalso. apply Hnot. by left.
  - f_equal. apply IH. intros Hin. apply Hnot. by right.
Qed.

Lemma NoDup_unsentMessages st : wf st -> NoDup (unsentMessages st).
Proof. intros (_ & Hn & _). by apply NoDup_List_filter. Qed.

Lemma unsentMessages_after_delivery st p now f :
  wf st -> select st = inr p ->
  unsentMessages (fst (complete p Delivered now f st)) = tail (unsentMessages st).
Proof.
  intros Hwf Hsel. simpl. rewrite unsentMessages_mark.
  pose proof (NoDup_unsentMessages st Hwf) as Hn.
  destruct (select_inr _ _ Hsel) as (rest & m & Hu & _).
  rewrite Hu in Hn |- *. simpl. rewrite Nat.eqb_refl. simpl.
  apply NoDup_cons in Hn as [Hnot _].
  apply filter_other_than. intros Hin. apply Hnot. by apply list_elem_of_In.
Qed.

(** X1. A run that reports a failure has changed nothing, and a run reports
    success exactly when the queue has an unsent message, the transport is
    configured, a phone number is set and the transport delivers. *)
Theorem failed_run_changes_nothing outcome now fs_ok st :
  (success (snd (sendDailyMessage outcome now fs_ok st)) = false ->
   fst (sendDailyMessage outcome now fs_ok st) = st)
  /\ (success (snd (sendDailyMessage outcome now fs_ok st)) = true <->
      unsentMessages st <> [] /\ transporter st = true
      /\ phoneNumber (config st) <> "" /\ outcome = Delivered).
Proof.
  unfold sendDailyMessage, select.
  destruct (unsentMessages st) as [|r rest]; simpl.
  { split; [done|]. split; [discriminate|]. by intros (H & _). }
  destruct (transporter st); simpl.
  2:{ split; [done|]. split; [discriminate|]. by intros (_ & H & _). }
  destruct (String.eqb_spec (phoneNumber (config st)) "") as [He|Hne]; simpl.
  { split; [done|]. split; [discriminate|]. by intros (_ & _ & H & _). }
  destruct outcome as [|reason]; simpl.
  - split; [discriminate|]. split; [done|]. done.
  - split; [done|]. split; [discriminate|]. by intros (_ & _ & _ & H).
Qed.

Lemma failed_run_changes_nothing_witness :
  fst (sendDailyMessage Delivered 1700000086400 true
         (with_config (mkConfig "" "12:00" "att") st_hello))
  = with_config (mkConfig "" "12:00" "att") st_hello.
Proof.
  destruct (failed_run_changes_nothing Delivered 1700000086400 true
              (with_config (mkConfig "" "12:00" "att") st_hello)) as [H _].
  apply H. reflexivity.
Defined.

(** X2. After a delivered run the unsent messages are the ones that were
    behind the selected one, in their order: the next run takes the next
    message. *)
Theorem delivered_run_advances_queue outcome now fs_ok st :
  wf st -> success (snd (sendDailyMessage outcome now fs_ok st)) = true ->
  unsentMessages (fst (sendDailyMessage outcome now fs_ok st))
  = tail (unsentMessages st)
  /\ length (unsentMessages (fst (sendDailyMessage outcome now fs_ok st)))
     = pred (length (unsentMessages st)).
Proof.
  intros Hwf Hok.
  assert (Htail : unsentMessages (fst (sendDailyMessage outcome now fs_ok st))
                  = tail (unsentMessages st)).
  { unfold sendDailyMessage in *. destruct (select st) as [res|p] eqn:Hsel.
    - unfold select in Hsel.
      destruct (unsentMessages st); [by injection Hsel as <-|].
      destruct (transporter st); simpl in Hsel; [|by injection Hsel as <-].
      destruct (String.eqb _ _); [by injection Hsel as <-|discriminate].
    - destruct outcome; [|discriminate]. by apply unsentMessages_after_delivery. }
  split; [exact Htail|]. rewrite Htail. by destruct (unsentMessages st).
Qed.

Lemma delivered_run_advances_queue_witness :
  unsentMessages (fst (sendDailyMessage Delivered 1700000086400 true st_hello)) = [].
Proof.
  destruct (delivered_run_advances_queue Delivered 1700000086400 true st_hello)
    as [H _].
  - apply (bool_decide_unpack _). vm_compute. reflexivity.
  - reflexivity.
  - exact H.
Defined.

Lemma delivered_run_advances_queue_aux st now f :
  wf st -> transporter st = true -> phoneNumber (config st) <> "" ->
  unsentMessages st <> [] ->
  unsentMessages (fst (sendDailyMessage Delivered now f st)) = tail (unsentMessages st)
  /\ snd (sendDailyMessage Delivered now f st) = Sent.
Proof.
  intros Hwf Ht Hp Hne. unfold sendDailyMessage.
  destruct (select st) as [res|p] eqn:Hsel.
  - exfalso. unfold select in Hsel. destruct (unsentMessages st); [done|].
    rewrite Ht in Hsel. simpl in Hsel.
    by destruct (String.eqb_spec (phoneNumber (config st)) "").
  - split; [by apply unsentMessages_after_delivery | done].
Qed.

(** X3. As many delivered runs as there are time stamps take that many
    messages off the front of the unsent ones and leave the queue itself as
    it is; once as many runs as unsent messages are done, a further run
    finds nothing to send. *)
Theorem delivered_runs_drain_in_order (l : list (Z * bool)) now fs_ok st :
  wf st -> transporter st = true -> phoneNumber (config st) <> "" ->
  let st' := run_ops (delivered_runs l) st in
  unsentMessages st' = drop (length l) (unsentMessages st)
  /\ messages st' = messages st
  /\ ((length (unsentMessages st) <= length l)%nat ->
      sendDailyMessage Delivered now fs_ok st' = (st', NoMessagesQueued)).
Proof.
  intros Hwf Ht Hp. simpl.
  assert (Hmain : unsentMessages (run_ops (delivered_runs l) st)
                  = drop (length l) (unsentMessages st)
                  /\ messages (run_ops (delivered_runs l) st) = messages st).
  { revert st Hwf Ht Hp. induction l as [|[t f] l IH]; intros st Hwf Ht Hp.
    - done.
    - unfold run_ops, delivered_runs. cbn [map fold_left apply_op fst snd].
      fold (delivered_runs l). fold (run_ops (delivered_runs l)
                                       (fst (sendDailyMessage Delivered t f st))).
      destruct (sendDailyMessage_frame Delivered t f st) as (Ht' & Hc' & Hm').
      destruct (IH (fst (sendDailyMessage Delivered t f st))) as [IHu IHm].
      + by apply wf_sendDailyMessage.
      + by rewrite Ht'.
      + by rewrite Hc'.
      + rewrite IHu, IHm, Hm'. split; [|done].
        destruct (unsentMessages st) as [|r rest] eqn:Hu.
        * assert (Hsame : fst (sendDailyMessage Delivered t f st) = st).
          { unfold sendDailyMessage, select. by rewrite Hu. }
          rewrite Hsame, Hu. by rewrite !drop_nil.
        * destruct (delivered_run_advances_queue_aux st t f Hwf Ht Hp) as [Hx _].
          { by rewrite Hu. }
          rewrite Hx, Hu. done. }
  destruct Hmain as [Hu Hm]. split; [done|]. split; [done|].
  intros Hlen. unfold sendDailyMessage, select. rewrite Hu.
  by rewrite drop_ge.
Qed.

Lemma delivered_runs_drain_in_order_witness :
  unsentMessages st_two = [0; 1]%nat
  /\ unsentMessages
       (run_ops (delivered_runs [(1700000086400, true); (1700086486400, true)]) st_two)
     = []
  /\ snd (sendDailyMessage Delivered 1700172886400 true
            (run_ops (delivered_runs [(1700000086400, true); (1700086486400, true)])
                     st_two))
     = NoMessagesQueued.
Proof.
  destruct (delivered_runs_drain_in_order
              [(1700000086400, true); (1700086486400, true)]
              1700172886400 true st_two) as (Hu & _ & Hlast).
  - apply (bool_decide_unpack _). vm_compute. reflexivity.
  - reflexivity.
  - discriminate.
  - split; [reflexivity|]. split; [exact Hu|].
    rewrite Hlast; [reflexivity|]. simpl. lia.
Defined.

(** ** What no request changes *)

Lemma stable_apply_op st o r m :
  heap st !! r = Some m ->
  exists m',
    heap (apply_op st o) !! r = Some m'
    /\ Message.id m' = Message.id m
    /\ Message.text m' = Message.text m
    /\ Message.createdAt m' = Message.createdAt m
    /\ (Message.sent m = true -> m' = m).
Proof.
  intros Hm.
  destruct o as [t1 t2 f body_text | f params_id | outcome now f]; simpl.
  - exists m. rewrite heap_saveMessages. simpl.
    rewrite lookup_app_l by (by eapply lookup_lt_Some). done.
  - exists m. rewrite heap_saveMessages. done.
  - unfold sendDailyMessage. destruct (select st) as [res|p] eqn:Hsel; [by exists m|].
    destruct outcome as [|reason]; simpl; [|by exists m].
    rewrite heap_saveMessages. simpl.
    destruct (select_inr _ _ Hsel) as (rest & m0 & _ & Hm0 & Hs0 & _).
    destruct (decide (messageToSend p = r)) as [Heq|Hne].
    + rewrite Heq in Hm0 |- *. assert (m0 = m) by congruence. subst m0.
      exists (Message.mark_sent now m). rewrite list_lookup_alter_eq, Hm.
      repeat split; try done. intros Hs. congruence.
    + exists m. by rewrite list_lookup_alter_ne.
Qed.

(** X4. Over any sequence of enqueues, deletes and runs, a message object
    keeps its id, its text and its creation time, and once it is sent it
    does not change at all: no request unmarks a message or stamps it a
    second time. *)
Theorem message_objects_are_stable ops st r m :
  heap st !! r = Some m ->
  exists m',
    heap (run_ops ops st) !! r = Some m'
    /\ Message.id m' = Message.id m
    /\ Message.text m' = Message.text m
    /\ Message.createdAt m' = Message.createdAt m
    /\ (Message.sent m = true -> m' = m).
Proof.
  unfold run_ops. revert st m. induction ops as [|o ops IH]; intros st m Hm.
  - exists m. done.
  - cbn [fold_left].
    destruct (stable_apply_op st o r m Hm) as (m1 & Hm1 & Hi1 & Ht1 & Hc1 & Hs1).
    destruct (IH _ _ Hm1) as (m' & Hm' & Hi & Ht & Hc & Hs).
    exists m'. split; [done|]. split; [congruence|]. split; [congruence|].
    split; [congruence|]. intros Hsent. specialize (Hs1 Hsent). subst m1.
    by apply Hs.
Qed.

Lemma message_objects_are_stable_witness :
  exists m',
    heap (run_ops (delivered_runs [(1700000086400, true); (1700086486400, true)])
                  st_two) !! 0%nat = Some m'
    /\ Message.id m' = 1700000000000
    /\ Message.text m' = "Hello".
Proof.
  destruct (message_objects_are_stable
              (delivered_runs [(1700000086400, true); (1700086486400, true)])
              st_two 0%nat
              (Message.mk 1700000000000 "Hello" false 1700000000000 None))
    as (m' & Hm' & Hi & Ht & _).
  - reflexivity.
  - exists m'. split; [exact Hm'|]. split; [exact Hi | exact Ht].
Defined.

(** ** A delete while a run awaits the transport *)

Lemma queue_alter_outside (h : list Message.t) (ms : list nat) f r :
  ~ In r ms ->
  omap (fun r' => alter f r h !! r') ms = omap (fun r' => h !! r') ms.
Proof.
  induction ms as [|x ms IH]; simpl; [done|]. intros Hnot.
  rewrite list_lookup_alter_ne by (intros ->; apply Hnot; by left).
  assert (Hrest : omap (fun r' => alter f r h !! r') ms = omap (fun r' => h !! r') ms)
    by (apply IH; intros Hin; apply Hnot; by right).
  destruct (h !! x); [f_equal; exact Hrest | exact Hrest].
Qed.

(** X5. When the selected message is deleted while the run awaits the
    transport and the transport then delivers, the run still reports
    success; the mark goes to the object that left the queue, so the queue
    and what is written to the file are what the delete left, with no
    message of that id in them. *)
Theorem delete_while_awaiting now f1 f2 params_id st p m :
  select st = inr p -> heap st !! messageToSend p = Some m ->
  Js.parseInt params_id = Some (Message.id m) ->
  let st1 := fst (deleteMessage f1 params_id st) in
  let run := complete p Delivered now f2 st1 in
  snd run = Sent
  /\ ~ In (messageToSend p) (messages st1)
  /\ messages (fst run) = messages st1
  /\ queue (fst run) = queue st1
  /\ Forall (fun m' => Message.id m' <> Message.id m) (queue (fst run))
  /\ (f2 = true -> messages_file (fst run) = Some (queue st1)).
Proof.
  intros Hsel Hm Hparse. simpl.
  rewrite !messages_saveMessages, !queue_saveMessages. simpl.
  rewrite ?messages_saveMessages. simpl.
  assert (Hgone : ~ In (messageToSend p)
                      (List.filter (id_differs (heap st) (Js.parseInt params_id))
                                   (messages st))).
  { intros Hin. apply filter_In in Hin as [_ Hd]. unfold id_differs in Hd.
    rewrite Hm, Hparse in Hd. simpl in Hd. by rewrite Z.eqb_refl in Hd. }
  assert (Hq : queue (with_heap
                        (alter (Message.mark_sent now) (messageToSend p)
                           (heap (saveMessages f1
                                    (with_messages
                                       (List.filter (id_differs (heap st) (Js.parseInt params_id))
                                                    (messages st)) st))))
                        (saveMessages f1
                           (with_messages
                              (List.filter (id_differs (heap st) (Js.parseInt params_id))
                                           (messages st)) st)))
               = queue (with_messages
                          (List.filter (id_differs (heap st) (Js.parseInt params_id))
                                       (messages st)) st)).
  { unfold queue. rewrite heap_saveMessages. simpl. rewrite messages_saveMessages. simpl.
    by apply queue_alter_outside. }
  rewrite Hq.
  split; [done|]. split; [done|]. split; [done|]. split; [done|]. split.
  - unfold queue. simpl. rewrite queue_filter.
    apply Forall_forall. intros m' Hm'.
    apply list_elem_of_In, filter_In in Hm' as [_ Hd].
    rewrite Hparse in Hd. simpl in Hd. apply negb_true_iff, Z.eqb_neq in Hd. done.
  - intros ->. simpl. by rewrite Hq.
Qed.

Lemma delete_while_awaiting_witness :
  snd (complete (mkPending 0 "5551234567@tmomail.net" "Hello") Delivered 1700000086400 true
         (fst (deleteMessage true "1700000000000" st_hello))) = Sent
  /\ queue (fst (complete (mkPending 0 "5551234567@tmomail.net" "Hello") Delivered
                   1700000086400 true
                   (fst (deleteMessage true "1700000000000" st_hello)))) = [].
Proof.
  destruct (delete_while_awaiting 1700000086400 true true "1700000000000" st_hello
              (mkPending 0 "5551234567@tmomail.net" "Hello")
              (Message.mk 1700000000000 "Hello" false 1700000000000 None))
    as (H1 & _ & _ & H4 & _).
  - vm_compute. reflexivity.
  - reflexivity.
  - vm_compute. reflexivity.
  - split; [exact H1|]. rewrite H4. vm_compute. reflexivity.
Defined.

(** ** The id in the reply and the id in the request *)

Lemma parse_digits_uint d acc :
  Js.parse_digits 10 (NilEmpty.string_of_uint d) acc
  = match d with
    | Decimal.Nil => acc
    | _ => Some (uint_value d (default 0 acc))
    end.
Proof.
  revert acc. induction d as [|d IH|d IH|d IH|d IH|d IH|d IH|d IH|d IH|d IH|d IH];
    intros acc; [done|..].
  all: cbn [NilEmpty.string_of_uint Js.parse_digits].
  all: match goal with
       | |- context [Js.digit_value 10 ?c] =>
           let v := eval vm_compute in (Js.digit_value 10 c) in
           change (Js.digit_value 10 c) with v
       end.
  all: cbv iota beta; rewrite IH; cbn [default from_option uint_value];
    rewrite ?Z.add_0_r.
  all: by destruct d.
Qed.

Lemma uint_value_pos d (acc : positive) :
  uint_value d (Zpos acc) = Zpos (Pos.of_uint_acc d acc).
Proof.
  revert acc. induction d; intros acc; simpl; [done|..].
  all: match goal with
       | |- uint_value ?d ?x = Z.pos (Pos.of_uint_acc ?d ?y) =>
           replace x with (Zpos y) by lia
       end.
  all: apply IHd.
Qed.

Lemma uint_value_0 d : uint_value d 0 = Z.of_N (Pos.of_uint d).
Proof.
  induction d; simpl; [done|exact IHd|..].
  all: apply (uint_value_pos d).
Qed.

Lemma strip_one_space_digit c r :
  Js.is_digit c = true -> Js.strip_one_space (String c r) = None.
Proof.
  intros Hc. destruct c as [[] [] [] [] [] [] [] []]; try discriminate Hc.
  all: vm_compute; reflexivity.
Qed.

Lemma trim_start_digit c r :
  Js.is_digit c = true -> Js.trim_start (String c r) = String c r.
Proof.
  intros Hc. unfold Js.trim_start. cbn [String.length Js.trim_start_fuel].
  by rewrite strip_one_space_digit.
Qed.

Lemma trim_start_minus r : Js.trim_start (String "-" r) = String "-" r.
Proof.
  unfold Js.trim_start. cbn [String.length Js.trim_start_fuel].
  assert (H : Js.strip_one_space (String "-" r) = None) by (vm_compute; reflexivity).
  by rewrite H.
Qed.

Lemma radix_of_decimal c r :
  (Ascii.eqb c "0" = true ->
   match r with
   | String c1 _ => Ascii.eqb c1 "x" || Ascii.eqb c1 "X" = false
   | EmptyString => True
   end) ->
  match String c r with
  | String c0 (String c1 r') =>
      if Ascii.eqb c0 "0" && (Ascii.eqb c1 "x" || Ascii.eqb c1 "X")
      then (16, r') else (10, String c r)
  | _ => (10, String c r)
  end = (10, String c r).
Proof.
  intros Hzero. destruct r as [|c1 r']; [done|].
  destruct (Ascii.eqb c "0"); [|done].
  specialize (Hzero eq_refl). simpl in Hzero. by rewrite Hzero.
Qed.

(** What [parseInt] does with a string that starts with a decimal digit
    and is not a hexadecimal literal. *)
Lemma parseInt_after_digit c r :
  Js.is_digit c = true ->
  (Ascii.eqb c "0" = true ->
   match r with
   | String c1 _ => Ascii.eqb c1 "x" || Ascii.eqb c1 "X" = false
   | EmptyString => True
   end) ->
  Js.parseInt (String c r) = Js.parse_digits 10 (String c r) None.
Proof.
  intros Hc Hzero. unfold Js.parseInt. rewrite trim_start_digit by done.
  assert (Hm : Ascii.eqb c "-" = false).
  { destruct (Ascii.eqb_spec c "-") as [->|]; [discriminate Hc | done]. }
  assert (Hp : Ascii.eqb c "+" = false).
  { destruct (Ascii.eqb_spec c "+") as [->|]; [discriminate Hc | done]. }
  rewrite Hm, Hp, (radix_of_decimal c r Hzero).
  destruct (Js.parse_digits 10 (String c r) None); [|done].
  f_equal; lia.
Qed.

Lemma parseInt_after_minus c r :
  Js.is_digit c = true ->
  (Ascii.eqb c "0" = true ->
   match r with
   | String c1 _ => Ascii.eqb c1 "x" || Ascii.eqb c1 "X" = false
   | EmptyString => True
   end) ->
  Js.parseInt (String "-" (String c r))
  = match Js.parse_digits 10 (String c r) None with
    | Some n => Some (- n)
    | None => None
    end.
Proof.
  intros Hc Hzero. unfold Js.parseInt. rewrite trim_start_minus.
  change (Ascii.eqb "-" "-") with true. cbv iota beta.
  rewrite (radix_of_decimal c r Hzero).
  destruct (Js.parse_digits 10 (String c r) None); [|done].
  f_equal; lia.
Qed.

Lemma digit_not_x c :
  Js.is_digit c = true -> Ascii.eqb c "x" || Ascii.eqb c "X" = false.
Proof.
  intros Hc.
  destruct (Ascii.eqb_spec c "x") as [->|]; [discriminate Hc|].
  destruct (Ascii.eqb_spec c "X") as [->|]; [discriminate Hc|done].
Qed.

Lemma string_of_uint_head d :
  d <> Decimal.Nil ->
  exists c r,
    NilEmpty.string_of_uint d = String c r
    /\ Js.is_digit c = true
    /\ match r with String c1 _ => Js.is_digit c1 = true | EmptyString => True end.
Proof.
  intros Hd. destruct d as [|d|d|d|d|d|d|d|d|d|d]; [done|..].
  all: eexists _, _; split; [reflexivity|]; split; [reflexivity|].
  all: by destruct d.
Qed.

Lemma next_not_x r junk_head junk :
  match r with String c1 _ => Js.is_digit c1 = true | EmptyString => True end ->
  Ascii.eqb junk_head "x" || Ascii.eqb junk_head "X" = false ->
  match r +:+ String junk_head junk with
  | String c1 _ => Ascii.eqb c1 "x" || Ascii.eqb c1 "X" = false
  | EmptyString => True
  end.
Proof.
  intros Hr Hj. destruct r as [|c1 r']; simpl; [done|]. by apply digit_not_x.
Qed.

Lemma parseInt_uint d :
  d <> Decimal.Nil ->
  Js.parseInt (NilEmpty.string_of_uint d) = Some (uint_value d 0).
Proof.
  intros Hd. destruct (string_of_uint_head d Hd) as (c & r & Hs & Hc & Hr).
  rewrite Hs, parseInt_after_digit; [|done|].
  - rewrite <- Hs, parse_digits_uint. by destruct d.
  - intros _. destruct r; [done|]. by apply digit_not_x.
Qed.

Lemma parseInt_minus_uint d :
  d <> Decimal.Nil ->
  Js.parseInt (String "-" (NilEmpty.string_of_uint d)) = Some (- uint_value d 0).
Proof.
  intros Hd. destruct (string_of_uint_head d Hd) as (c & r & Hs & Hc & Hr).
  rewrite Hs, parseInt_after_minus; [|done|].
  - rewrite <- Hs, parse_digits_uint. by destruct d.
  - intros _. destruct r; [done|]. by apply digit_not_x.
Qed.

Lemma digit_value_non_digit c : Js.is_digit c = false -> Js.digit_value 10 c = None.
Proof.
  intros Hc. destruct c as [[] [] [] [] [] [] [] []]; try discriminate Hc.
  all: vm_compute; reflexivity.
Qed.

Lemma parse_digits_stops s c rest acc :
  Js.is_digit c = false ->
  Js.parse_digits 10 (s +:+ String c rest) acc = Js.parse_digits 10 s acc.
Proof.
  intros Hc. revert acc. induction s as [|c0 s IH]; intros acc; simpl.
  - by rewrite digit_value_non_digit.
  - destruct (Js.digit_value 10 c0); [apply IH | done].
Qed.

Lemma parseInt_uint_then d c rest :
  d <> Decimal.Nil -> Js.is_digit c = false ->
  Ascii.eqb c "x" || Ascii.eqb c "X" = false ->
  Js.parseInt (NilEmpty.string_of_uint d +:+ String c rest) = Some (uint_value d 0)
  /\ Js.parseInt (String "-" (NilEmpty.string_of_uint d +:+ String c rest))
     = Some (- uint_value d 0).
Proof.
  intros Hd Hc Hx. destruct (string_of_uint_head d Hd) as (c0 & r & Hs & Hc0 & Hr).
  assert (Hdigits : Js.parse_digits 10 (String c0 (r +:+ String c rest)) None
                    = Some (uint_value d 0)).
  { change (String c0 (r +:+ String c rest)) with (String c0 r +:+ String c rest).
    rewrite parse_digits_stops by done. rewrite <- Hs, parse_digits_uint.
    by destruct d. }
  rewrite Hs. change (String c0 r +:+ String c rest) with (String c0 (r +:+ String c rest)).
  split.
  - rewrite parseInt_after_digit; [done|done|]. intros _. by apply next_not_x.
  - rewrite parseInt_after_minus; [by rewrite Hdigits|done|]. intros _. by apply next_not_x.
Qed.

Lemma parseInt_integer_to_string (n : Z) :
  Js.parseInt (integer_to_string n) = Some n.
Proof.
  unfold integer_to_string. destruct n as [|p|p]; simpl.
  - vm_compute. reflexivity.
  - pose proof (Unsigned.to_uint_nonnil p) as Hn.
    replace (NilZero.string_of_uint (Pos.to_uint p))
      with (NilEmpty.string_of_uint (Pos.to_uint p))
      by (unfold NilZero.string_of_uint; by destruct (Pos.to_uint p)).
    rewrite parseInt_uint by done.
    by rewrite uint_value_0, Unsigned.of_to.
  - pose proof (Unsigned.to_uint_nonnil p) as Hn.
    replace (NilZero.string_of_uint (Pos.to_uint p))
      with (NilEmpty.string_of_uint (Pos.to_uint p))
      by (unfold NilZero.string_of_uint; by destruct (Pos.to_uint p)).
    rewrite parseInt_minus_uint by done.
    by rewrite uint_value_0, Unsigned.of_to.
Qed.

(** X6. The id of a message (an integer Number, so below 2^53 in magnitude),
    printed as the replies print it and sent back as the [:id] of a
    delete, is read by [parseInt] as that id. *)
Theorem parseInt_reads_printed_id (n : Z) :
  Z.abs n < 2 ^ 53 ->
  Js.parseInt (integer_to_string n) = Some n.
Proof.
  intros _. unfold integer_to_string. destruct n as [|p|p]; simpl.
  - vm_compute. reflexivity.
  - pose proof (Unsigned.to_uint_nonnil p) as Hn.
    replace (NilZero.string_of_uint (Pos.to_uint p))
      with (NilEmpty.string_of_uint (Pos.to_uint p))
      by (unfold NilZero.string_of_uint; by destruct (Pos.to_uint p)).
    rewrite parseInt_uint by done.
    by rewrite uint_value_0, Unsigned.of_to.
  - pose proof (Unsigned.to_uint_nonnil p) as Hn.
    replace (NilZero.string_of_uint (Pos.to_uint p))
      with (NilEmpty.string_of_uint (Pos.to_uint p))
      by (unfold NilZero.string_of_uint; by destruct (Pos.to_uint p)).
    rewrite parseInt_minus_uint by done.
    by rewrite uint_value_0, Unsigned.of_to.
Qed.

Lemma parseInt_reads_printed_id_witness :
  integer_to_string 1700000000000 = "1700000000000"
  /\ Js.parseInt (integer_to_string 1700000000000) = Some 1700000000000.
Proof.
  split; [reflexivity|]. apply parseInt_reads_printed_id. reflexivity.
Defined.

(** X7. [parseInt] stops at the first character that is not a digit: a
    printed id followed by anything that starts with a character other than
    a digit, [x] or [X] is read as that id, so a delete with such a
    parameter removes the messages of that id. *)
Theorem parseInt_ignores_what_follows (n : Z) c rest :
  Z.abs n < 2 ^ 53 -> Js.is_digit c = false ->
  Ascii.eqb c "x" || Ascii.eqb c "X" = false ->
  Js.parseInt (integer_to_string n +:+ String c rest) = Some n.
Proof.
  intros _ Hc Hx. unfold integer_to_string. destruct n as [|p|p]; simpl.
  - change (Js.parseInt (String "0" (String c rest)) = Some 0).
    rewrite parseInt_after_digit; [|done|by intros _].
    simpl. by rewrite digit_value_non_digit.
  - pose proof (Unsigned.to_uint_nonnil p) as Hn.
    replace (NilZero.string_of_uint (Pos.to_uint p))
      with (NilEmpty.string_of_uint (Pos.to_uint p))
      by (unfold NilZero.string_of_uint; by destruct (Pos.to_uint p)).
    destruct (parseInt_uint_then (Pos.to_uint p) c rest Hn Hc Hx) as [H _].
    by rewrite H, uint_value_0, Unsigned.of_to.
  - pose proof (Unsigned.to_uint_nonnil p) as Hn.
    replace (NilZero.string_of_uint (Pos.to_uint p))
      with (NilEmpty.string_of_uint (Pos.to_uint p))
      by (unfold NilZero.string_of_uint; by destruct (Pos.to_uint p)).
    destruct (parseInt_uint_then (Pos.to_uint p) c rest Hn Hc Hx) as [_ H].
    change (String "-" (NilEmpty.string_of_uint (Pos.to_uint p)) +:+ String c rest)
      with (String "-" (NilEmpty.string_of_uint (Pos.to_uint p) +:+ String c rest)).
    by rewrite H, uint_value_0, Unsigned.of_to.
Qed.

Lemma parseInt_ignores_what_follows_witness :
  Js.parseInt "1700000000000.5abc" = Some 1700000000000
  /\ queue (fst (deleteMessage true "1700000000000.5abc" st_hello)) = [].
Proof.
  assert (H : Js.parseInt (integer_to_string 1700000000000 +:+ String "." "5abc")
              = Some 1700000000000).
  { apply parseInt_ignores_what_follows; reflexivity. }
  split; [exact H|]. vm_compute. reflexivity.
Defined.

(** ** Deletes *)

Lemma filter_filter_same {A} (f : A -> bool) (l : list A) :
  List.filter f (List.filter f l) = List.filter f l.
Proof.
  induction l as [|x l IH]; simpl; [done|].
  destruct (f x) eqn:Hx; simpl; [by rewrite Hx, IH | done].
Qed.

Lemma filter_filter_swap {A} (f g : A -> bool) (l : list A) :
  List.filter f (List.filter g l) = List.filter g (List.filter f l).
Proof.
  induction l as [|x l IH]; simpl; [done|].
  destruct (g x) eqn:Hg, (f x) eqn:Hf; simpl; rewrite ?Hg, ?Hf, ?IH; done.
Qed.

(** X8. Deleting the same id a second time changes nothing more, and two
    deletes leave the same queue in either order. *)
Theorem deleteMessage_idempotent_and_commutes f1 f2 f3 f4 s1 s2 st :
  queue (fst (deleteMessage f2 s1 (fst (deleteMessage f1 s1 st))))
  = queue (fst (deleteMessage f1 s1 st))
  /\ messages (fst (deleteMessage f2 s2 (fst (deleteMessage f1 s1 st))))
     = messages (fst (deleteMessage f4 s1 (fst (deleteMessage f3 s2 st)))).
Proof.
  simpl. rewrite !queue_saveMessages, !messages_saveMessages. simpl.
  rewrite ?heap_saveMessages, ?messages_saveMessages. simpl. split.
  - rewrite filter_filter_same. unfold queue. simpl. by rewrite heap_saveMessages.
  - apply filter_filter_swap.
Qed.

(** X9. An enqueue followed by the delete of the id the reply printed leaves
    the queue as it was, provided no queued message had that id. *)
Theorem add_then_delete_restores_queue now_id now_created f1 f2 body_text st :
  wf st -> Z.abs now_id < 2 ^ 53 ->
  Forall (fun m => Message.id m <> now_id) (queue st) ->
  queue (fst (deleteMessage f2 (integer_to_string now_id)
                (fst (addMessage now_id now_created f1 body_text st))))
  = queue st.
Proof.
  intros (Hb & _) Hsafe Hfresh. simpl.
  rewrite queue_saveMessages, heap_saveMessages, messages_saveMessages. simpl.
  unfold queue at 1. simpl. rewrite heap_saveMessages. simpl.
  rewrite queue_filter, queue_push by done.
  rewrite parseInt_integer_to_string.
  rewrite List.filter_app. simpl. rewrite Z.eqb_refl. simpl. rewrite app_nil_r.
  fold (queue st). induction Hfresh as [|m q Hm _ IH]; simpl; [done|].
  destruct (Z.eqb_spec (Message.id m) now_id); [done|]. simpl. by rewrite IH.
Qed.

Lemma add_then_delete_restores_queue_witness :
  queue (fst (deleteMessage true (integer_to_string 1700000000500)
                (fst (addMessage 1700000000500 1700000000500 true "World" st_hello))))
  = queue st_hello.
Proof.
  apply add_then_delete_restores_queue.
  - apply (bool_decide_unpack _). vm_compute. reflexivity.
  - reflexivity.
  - repeat constructor. simpl. lia.
Defined.

(** ** Health *)

Lemma is_sent_unsent h r m : h !! r = Some m -> is_sent h r = negb (is_unsent h r).
Proof. intros Hm. unfold is_sent, is_unsent. rewrite Hm. by destruct (Message.sent m). Qed.

Lemma health_partition_aux h ms :
  Forall (fun r => (r < length h)%nat) ms ->
  (length (List.filter (is_unsent h) ms) + length (List.filter (is_sent h) ms)
   = length ms)%nat.
Proof.
  induction 1 as [|r ms Hr _ IH]; simpl; [done|].
  destruct (lookup_lt_is_Some_2 h r Hr) as [m Hm].
  rewrite (is_sent_unsent h r m Hm).
  destruct (is_unsent h r); simpl; lia.
Qed.

(** X10. The two counts of the health reply add up to the number of messages
    of the status reply. *)
Theorem health_counts_add_up st :
  wf st ->
  (messagesQueued (health st) + messagesSent (health st) = messagesCount st)%nat.
Proof. intros (Hb & _). by apply health_partition_aux. Qed.

Lemma health_counts_add_up_witness :
  (messagesQueued (health st_two) + messagesSent (health st_two) = 2)%nat.
Proof.
  assert (Hc : messagesCount st_two = 2%nat) by reflexivity.
  rewrite <- Hc. apply health_counts_add_up.
  apply (bool_decide_unpack _). vm_compute. reflexivity.
Defined.

Lemma delivered_run_shortens st outcome now f :
  wf st -> success (snd (sendDailyMessage outcome now f st)) = true ->
  length (unsentMessages (fst (sendDailyMessage outcome now f st)))
  = pred (length (unsentMessages st))
  /\ (0 < length (unsentMessages st))%nat.
Proof.
  intros Hwf Hok. unfold sendDailyMessage in *.
  destruct (select st) as [res|p] eqn:Hsel.
  - exfalso. unfold select in Hsel.
    destruct (unsentMessages st); [by injection Hsel as <-|].
    destruct (transporter st); simpl in Hsel; [|by injection Hsel as <-].
    destruct (String.eqb _ _); [by injection Hsel as <-|discriminate].
  - destruct outcome; [|discriminate].
    rewrite (unsentMessages_after_delivery st p now f Hwf Hsel).
    destruct (select_inr _ _ Hsel) as (rest & m & Hu & _). rewrite Hu. simpl.
    split; [done|lia].
Qed.

(** X11. A run that reports success moves one message from the queued count
    to the sent count of the health reply. *)
Theorem health_after_delivered_run outcome now fs_ok st :
  wf st -> success (snd (sendDailyMessage outcome now fs_ok st)) = true ->
  let st' := fst (sendDailyMessage outcome now fs_ok st) in
  S (messagesQueued (health st')) = messagesQueued (health st)
  /\ messagesSent (health st') = S (messagesSent (health st))
  /\ messagesCount st' = messagesCount st.
Proof.
  intros Hwf Hok. simpl.
  destruct (delivered_run_shortens st outcome now fs_ok Hwf Hok) as (Hlen & Hpos).
  destruct (sendDailyMessage_frame outcome now fs_ok st) as (_ & _ & Hm).
  pose proof (wf_sendDailyMessage outcome now fs_ok st Hwf) as Hwf'.
  destruct Hwf as (Hb & _). destruct Hwf' as (Hb' & _).
  pose proof (health_partition_aux _ _ Hb) as H1.
  pose proof (health_partition_aux _ _ Hb') as H2.
  change (length (unsentMessages st) + length (sentMessages st)
          = length (messages st))%nat in H1.
  change (length (unsentMessages (fst (sendDailyMessage outcome now fs_ok st)))
          + length (sentMessages (fst (sendDailyMessage outcome now fs_ok st)))
          = length (messages (fst (sendDailyMessage outcome now fs_ok st))))%nat in H2.
  rewrite Hm in H2. unfold messagesCount. rewrite Hm. lia.
Qed.

Lemma health_after_delivered_run_witness :
  messagesQueued (health (fst (sendDailyMessage Delivered 1700000086400 true st_two)))
  = 1%nat
  /\ messagesSent (health (fst (sendDailyMessage Delivered 1700000086400 true st_two)))
     = 1%nat.
Proof.
  destruct (health_after_delivered_run Delivered 1700000086400 true st_two)
    as (H1 & H2 & _).
  - apply (bool_decide_unpack _). vm_compute. reflexivity.
  - reflexivity.
  - split; [|exact H2]. apply eq_add_S. rewrite H1. reflexivity.
Defined.

(** ** The cron expression *)

Lemma split_colon_no_colon s : no_colon s = true -> Js.split_colon s = [s].
Proof.
  induction s as [|c r IH]; simpl; [done|]. intros H.
  apply andb_true_iff in H as [Hc Hr]. apply negb_true_iff in Hc.
  rewrite Hc, IH by done. done.
Qed.

Lemma split_colon_app h rest :
  no_colon h = true ->
  Js.split_colon (h +:+ String ":" rest) = h :: Js.split_colon rest.
Proof.
  induction h as [|c r IH]; simpl; [done|]. intros H.
  apply andb_true_iff in H as [Hc Hr]. apply negb_true_iff in Hc.
  rewrite Hc, IH by done. done.
Qed.

(** X12. For a send time [h:m] the expression is [m h * * *]; what follows
    a second colon is ignored; and without a colon the minutes field of
    the expression is the word [undefined]. *)
Theorem cronTime_of_hours_and_minutes h m rest :
  no_colon h = true -> no_colon m = true ->
  cronTime (h +:+ ":" +:+ m) = m +:+ " " +:+ h +:+ " * * *"
  /\ cronTime (h +:+ ":" +:+ m +:+ ":" +:+ rest) = m +:+ " " +:+ h +:+ " * * *"
  /\ cronTime h = "undefined " +:+ h +:+ " * * *".
Proof.
  intros Hh Hm. unfold cronTime.
  change (":" +:+ m) with (String ":" m).
  change (":" +:+ m +:+ ":" +:+ rest) with (String ":" (m +:+ String ":" rest)).
  rewrite !split_colon_app by done.
  rewrite (split_colon_no_colon m Hm), (split_colon_no_colon h Hh). done.
Qed.

Lemma cronTime_of_hours_and_minutes_witness :
  cronTime "09:30" = "30 09 * * *"
  /\ cronTime "09:30:15" = "30 09 * * *"
  /\ cronTime "09" = "undefined 09 * * *".
Proof.
  destruct (cronTime_of_hours_and_minutes "09" "30" "15") as (H1 & H2 & H3);
    [reflexivity | reflexivity |].
  split; [exact H1|]. split; [exact H2 | exact H3].
Defined.

(** ** The address, whatever the formatting of the number *)

Lemma replace_non_digits_app a b :
  Js.replace_non_digits (a +:+ b)
  = Js.replace_non_digits a +:+ Js.replace_non_digits b.
Proof.
  induction a as [|c r IH]; simpl; [done|].
  destruct (Js.is_digit c); simpl; by rewrite IH.
Qed.

Lemma all_digits_replace_non_digits s : all_digits (Js.replace_non_digits s) = true.
Proof.
  induction s as [|c r IH]; simpl; [done|].
  destruct (Js.is_digit c) eqn:Hc; simpl; [by rewrite Hc|done].
Qed.

(** X13. A character that is not a digit, wherever it stands in the phone
    number, makes no difference to the address, and the part of the
    address before the [@] that the code puts in holds digits only. *)
Theorem phoneToSmsEmail_ignores_formatting before c after carrier :
  Js.is_digit c = false ->
  phoneToSmsEmail (before +:+ String c after) carrier
  = phoneToSmsEmail (before +:+ after) carrier
  /\ all_digits (Js.replace_leading_1 (Js.replace_non_digits (before +:+ String c after)))
     = true.
Proof.
  intros Hc. unfold phoneToSmsEmail.
  rewrite !replace_non_digits_app. simpl. rewrite Hc. split; [done|].
  rewrite <- replace_non_digits_app.
  pose proof (all_digits_replace_non_digits (before +:+ after)) as Hall.
  destruct (Js.replace_non_digits (before +:+ after)) as [|d r]; [done|].
  simpl in Hall |- *. apply andb_true_iff in Hall as [Hd Hr].
  destruct (Ascii.eqb d "1"); [done|]. simpl. by rewrite Hd.
Qed.

Lemma phoneToSmsEmail_ignores_formatting_witness :
  phoneToSmsEmail "555-1234567" "verizon" = phoneToSmsEmail "5551234567" "verizon".
Proof.
  destruct (phoneToSmsEmail_ignores_formatting "555" "-" "1234567" "verizon") as [H _].
  - reflexivity.
  - exact H.
Defined.

(** X14. For a carrier tag that names no inherited property, the address is
    the digits of the number less one leading [1], the [@], and the domain
    of the tag or, for a tag the table does not have, the one of [att]. *)
Theorem phoneToSmsEmail_known_or_default phoneNumber carrier :
  Js.object_prototype !! carrier = None ->
  phoneToSmsEmail phoneNumber carrier
  = Js.replace_leading_1 (Js.replace_non_digits phoneNumber)
    +:+ "@" +:+ default "txt.att.net" (CARRIER_DOMAINS !! carrier).
Proof.
  intros Hproto. unfold phoneToSmsEmail, Js.get. rewrite Hproto.
  destruct (CARRIER_DOMAINS !! carrier) as [domain|] eqn:Hc; simpl; [|reflexivity].
  apply CARRIER_DOMAINS_nonempty in Hc.
  by destruct (String.eqb_spec domain "").
Qed.

Lemma phoneToSmsEmail_known_or_default_witness :
  phoneToSmsEmail "+1 (555) 123-4567" "sprint" = "5551234567@messaging.sprintpcs.com"
  /\ phoneToSmsEmail "+1 (555) 123-4567" "vodafone" = "5551234567@txt.att.net".
Proof.
  split.
  - rewrite (phoneToSmsEmail_known_or_default "+1 (555) 123-4567" "sprint");
      vm_compute; reflexivity.
  - rewrite (phoneToSmsEmail_known_or_default "+1 (555) 123-4567" "vodafone");
      vm_compute; reflexivity.
Defined.

(** ** The scheduler over a sequence of config updates *)

Lemma setupSchedule_consistent cron_check st :
  (forall k job, jobs st !! k = Some job -> running job = true ->
                 currentCronJob st = Some k) ->
  schedule_consistent (fst (setupSchedule cron_check st)).
Proof.
  intros Hinv.
  assert (Hstopped : forall k job,
             jobs (match currentCronJob st with
                   | Some j => with_jobs (alter stop j (jobs st)) st
                   | None => st
                   end) !! k = Some job -> running job = false).
  { intros k job Hk. destruct (currentCronJob st) as [j|] eqn:Hcur; simpl in Hk.
    - destruct (decide (j = k)) as [->|Hne].
      + rewrite list_lookup_alter_eq in Hk.
        destruct (jobs st !! k); [|done]. by injection Hk as <-.
      + rewrite list_lookup_alter_ne in Hk by done.
        destruct (running job) eqn:Hr; [|done].
        specialize (Hinv k job Hk Hr). congruence.
    - destruct (running job) eqn:Hr; [|done].
      specialize (Hinv k job Hk Hr). congruence. }
  unfold setupSchedule.
  set (st1 := match currentCronJob st with
              | Some j => with_jobs (alter stop j (jobs st)) st
              | None => st
              end) in *.
  destruct (cron_check (cronTime (sendTime (config st1)))) as [err|]; simpl.
  - intros k job Hk Hr. specialize (Hstopped k job Hk). congruence.
  - intros k job Hk Hr.
    apply lookup_app_Some in Hk as [Hk|[Hlen Hk]].
    + specialize (Hstopped k job Hk). congruence.
    + destruct (k - length (jobs st1))%nat as [|n] eqn:Hd; simpl in Hk; [|done].
      injection Hk as <-. simpl. split; [|done]. f_equal. lia.
Qed.

Lemma schedule_consistent_current st :
  schedule_consistent st ->
  forall k job, jobs st !! k = Some job -> running job = true ->
                currentCronJob st = Some k.
Proof. intros H k job Hk Hr. by destruct (H k job Hk Hr). Qed.

Lemma apply_config_consistent cron_check st u :
  schedule_consistent st -> schedule_consistent (apply_config cron_check st u).
Proof.
  intros Hc. unfold apply_config, postConfig.
  set (st1 := saveConfig _ _).
  assert (H1 : forall k job, jobs st1 !! k = Some job -> running job = true ->
                             currentCronJob st1 = Some k).
  { unfold st1. destruct (upd_fs_ok u); apply (schedule_consistent_current st Hc). }
  pose proof (setupSchedule_consistent cron_check st1 H1) as H2.
  by destruct (setupSchedule cron_check st1) as [st2 [err|]].
Qed.

Lemma running_at_most_one (l : list CronJob) (c : option nat) :
  (forall k job, l !! k = Some job -> running job = true -> c = Some k) ->
  (length (List.filter running l) <= 1)%nat.
Proof.
  revert c. induction l as [|x l IH]; intros c H; simpl; [lia|].
  destruct (running x) eqn:Hx; simpl.
  - assert (Hc : c = Some 0%nat) by (by apply (H 0%nat x)).
    assert (Hnone : List.filter running l = []).
    { assert (Hall : forall job, In job l -> running job = false).
      { intros job Hin. apply list_elem_of_In, list_elem_of_lookup in Hin as [k Hk].
        destruct (running job) eqn:Hr; [|done].
        specialize (H (S k) job Hk Hr). congruence. }
      clear -Hall. induction l as [|y l IH]; simpl; [done|].
      rewrite (Hall y) by (by left). apply IH. intros job Hin. apply Hall. by right. }
    rewrite Hnone. simpl. lia.
  - apply (IH (match c with Some (S k) => Some k | _ => None end)).
    intros k job Hk Hr. by rewrite (H (S k) job Hk Hr).
Qed.

(** X15. From start-up on and over any sequence of config updates, whatever
    [cron.schedule] accepts, at most one task runs, and a task that runs is
    the current one and is the one for the send time of the config. *)
Theorem at_most_one_job_runs cron_check us transporter_ready :
  let st := run_configs cron_check us
              (fst (setupSchedule cron_check (initial transporter_ready))) in
  (length (running_jobs st) <= 1)%nat
  /\ forall job, In job (running_jobs st) ->
       armed st = Some job
       /\ expression job = cronTime (sendTime (config st)).
Proof.
  simpl.
  assert (Hc : schedule_consistent
                 (run_configs cron_check us
                    (fst (setupSchedule cron_check (initial transporter_ready))))).
  { assert (H0 : schedule_consistent
                   (fst (setupSchedule cron_check (initial transporter_ready)))).
    { apply setupSchedule_consistent. intros k job Hk. simpl in Hk.
      by rewrite lookup_nil in Hk. }
    revert H0. generalize (fst (setupSchedule cron_check (initial transporter_ready))).
    unfold run_configs. induction us as [|u us IH]; intros st H0; [done|].
    cbn [fold_left]. apply IH. by apply apply_config_consistent. }
  set (st := run_configs _ _ _) in *. split.
  - apply (running_at_most_one (jobs st) (currentCronJob st)).
    apply (schedule_consistent_current st Hc).
  - intros job Hin. apply filter_In in Hin as [Hin Hr].
    apply list_elem_of_In, list_elem_of_lookup in Hin as [k Hk].
    destruct (Hc k job Hk Hr) as [Hcur Hexp]. split; [|done].
    unfold armed. by rewrite Hcur, Hk, Hr.
Qed.

(** ** Start-up and the data files *)

Lemma queue_loaded (h l : list Message.t) :
  omap (fun r => (h ++ l) !! r) (seq (length h) (length l)) = l.
Proof.
  revert h. induction l as [|m l IH]; intros h; simpl; [done|].
  rewrite list_lookup_middle by done. f_equal.
  specialize (IH (h ++ [m])). rewrite length_app in IH. simpl in IH.
  rewrite Nat.add_1_r in IH. rewrite <- app_assoc in IH. exact IH.
Qed.

Lemma queue_initializeStorage io st :
  mkdir_ok io = true -> read_messages_ok io = true ->
  queue (initializeStorage io st)
  = match messages_file st with
    | Some l => l
    | None => queue st
    end.
Proof.
  intros Hmk Hrd. unfold initializeStorage. rewrite Hmk, Hrd.
  set (st1 := match messages_file st with
              | Some l => load_messages l st
              | None => saveMessages (write_messages_ok io) st
              end).
  assert (Hq1 : queue st1 = match messages_file st with
                            | Some l => l
                            | None => queue st
                            end).
  { unfold st1. destruct (messages_file st) as [l|].
    - unfold queue, load_messages. simpl. apply queue_loaded.
    - apply queue_saveMessages. }
  rewrite <- Hq1.
  destruct (if read_config_ok io then config_file st1 else None); [done|].
  by destruct (write_config_ok io).
Qed.




(** X17. An enqueue whose write fails still answers with success, and after a
    restart the message is gone: the queue is the one of the file. *)
Theorem unsaved_message_is_lost now_id now_created body_text st io :
  messages_file st = Some (queue st) ->
  mkdir_ok io = true -> read_messages_ok io = true ->
  let run := addMessage now_id now_created false body_text st in
  snd run = Json true (Message.mk now_id body_text false now_created None)
  /\ queue (initializeStorage io (restart (fst run))) = queue st.
Proof.
  intros Hfile Hmk Hrd. simpl. split; [done|].
  rewrite queue_initializeStorage by done. simpl. by rewrite Hfile.
Qed.

Lemma unsaved_message_is_lost_witness :
  queue (initializeStorage io_ok
           (restart (fst (addMessage 1700000000500 1700000000500 false "World" st_hello))))
  = queue st_hello.
Proof.
  destruct (unsaved_message_is_lost 1700000000500 1700000000500 "World" st_hello io_ok)
    as [_ H]; [reflexivity | reflexivity | reflexivity |].
  exact H.
Defined.

(** X18. A config update with a send time that [cron.schedule] refuses is
    written to the config file all the same, and then every start that
    reads the file ends in [process.exit(1)]. *)
Theorem refused_sendTime_blocks_every_start
    cron_check body_phoneNumber body_sendTime body_carrier st io err :
  cron_check (cronTime (or_else body_sendTime "12:00")) = Some err ->
  mkdir_ok io = true -> read_config_ok io = true ->
  let st' := fst (postConfig cron_check body_phoneNumber body_sendTime body_carrier
                             true st) in
  config_file st'
  = Some (mkConfig body_phoneNumber (or_else body_sendTime "12:00")
                   (or_else body_carrier "att"))
  /\ start cron_check io (restart st') = None.
Proof.
  intros Herr Hmk Hrd. simpl.
  assert (Hfile : config_file
                    (fst (postConfig cron_check body_phoneNumber body_sendTime
                                     body_carrier true st))
                  = Some (mkConfig body_phoneNumber (or_else body_sendTime "12:00")
                                   (or_else body_carrier "att"))).
  { unfold postConfig, setupSchedule. simpl.
    destruct (currentCronJob st); simpl; by rewrite Herr. }
  split; [exact Hfile|].
  unfold start, initializeStorage. rewrite Hmk, Hrd.
  set (st0 := restart _).
  set (st1 := match (if read_messages_ok io then messages_file st0 else None) with
              | Some l => load_messages l st0
              | None => saveMessages (write_messages_ok io) st0
              end).
  assert (H1 : config_file st1 = config_file st0 /\ currentCronJob st1 = None).
  { unfold st1. destruct (if read_messages_ok io then messages_file st0 else None);
      [done|]. by destruct (write_messages_ok io). }
  destruct H1 as [H1 H1']. rewrite H1. unfold st0 at 1. simpl. rewrite Hfile.
  unfold setupSchedule. simpl. rewrite H1'. simpl. by rewrite Herr.
Qed.

Lemma refused_sendTime_blocks_every_start_witness :
  start sample_cron_check io_ok
    (restart (fst (postConfig sample_cron_check "+15551234567" "25:99" "att" true st_armed)))
  = None.
Proof.
  destruct (refused_sendTime_blocks_every_start sample_cron_check
              "+15551234567" "25:99" "att" st_armed io_ok
              "99 is a invalid expression for minute") as [_ H];
    [reflexivity | reflexivity | reflexivity |].
  exact H.
Defined.

Lemma at_most_one_job_runs_witness :
  armed (run_configs sample_cron_check
           [mkConfigUpdate "+15551234567" "09:30" "att" true;
            mkConfigUpdate "+15551234567" "25:99" "att" true;
            mkConfigUpdate "+15551234567" "10:15" "verizon" true]
           (fst (setupSchedule sample_cron_check (initial true))))
  = Some (mkCronJob "15 10 * * *" true).
Proof.
  destruct (at_most_one_job_runs sample_cron_check
              [mkConfigUpdate "+15551234567" "09:30" "att" true;
               mkConfigUpdate "+15551234567" "25:99" "att" true;
               mkConfigUpdate "+15551234567" "10:15" "verizon" true] true) as [_ H].
  destruct (H (mkCronJob "15 10 * * *" true)) as [Ha _]; [|exact Ha].
  vm_compute. auto.
Defined.

(** ** Runs that interleave *)

Lemma step_keeps_queue s e :
  messages (sys_state (step s e)) = messages (sys_state s).
Proof.
  destruct e as [k|k outcome now f]; simpl.
  - by destruct (select (sys_state s)).
  - destruct (awaiting s !! k) as [p|]; [|done].
    destruct (complete_frame p outcome now f (sys_state s)) as (_ & _ & Hm).
    by destruct (complete p outcome now f (sys_state s)).
Qed.

Lemma step_keeps_objects s e r m :
  heap (sys_state s) !! r = Some m ->
  exists m',
    heap (sys_state (step s e)) !! r = Some m'
    /\ Message.id m' = Message.id m
    /\ Message.text m' = Message.text m
    /\ Message.createdAt m' = Message.createdAt m
    /\ (Message.sent m = true -> Message.sent m' = true).
Proof.
  intros Hm. destruct e as [k|k outcome now f]; simpl.
  - exists m. by destruct (select (sys_state s)).
  - destruct (awaiting s !! k) as [p|]; [|by exists m].
    destruct outcome as [|reason]; simpl; [|by exists m].
    rewrite heap_saveMessages. simpl.
    destruct (decide (messageToSend p = r)) as [->|Hne].
    + exists (Message.mark_sent now m). by rewrite list_lookup_alter_eq, Hm.
    + exists m. by rewrite list_lookup_alter_ne.
Qed.

(** X19. However the runs of the dispatcher interleave, the queue keeps its
    entries and their order, every message object keeps its id, text and
    creation time, and a sent message stays sent. *)
Theorem interleaved_runs_keep_queue schedule st r m :
  heap st !! r = Some m ->
  messages (sys_state (exec schedule st)) = messages st
  /\ exists m',
       heap (sys_state (exec schedule st)) !! r = Some m'
       /\ Message.id m' = Message.id m
       /\ Message.text m' = Message.text m
       /\ Message.createdAt m' = Message.createdAt m
       /\ (Message.sent m = true -> Message.sent m' = true).
Proof.
  intros Hm. unfold exec.
  change st with (sys_state (mkSys st ∅ [])) in Hm.
  change (messages st) with (messages (sys_state (mkSys st ∅ []))).
  generalize dependent (mkSys st ∅ []). clear st.
  intros s. revert s m. induction schedule as [|e schedule IH]; intros s m Hm.
  - split; [done|]. by exists m.
  - cbn [fold_left].
    destruct (step_keeps_objects s e r m Hm) as (m1 & Hm1 & Hi1 & Ht1 & Hc1 & Hs1).
    destruct (IH (step s e) m1 Hm1) as (Hq & m' & Hm' & Hi & Ht & Hc & Hs).
    split; [by rewrite Hq, step_keeps_queue|].
    exists m'. split; [done|]. split; [congruence|]. split; [congruence|].
    split; [congruence|]. auto.
Qed.

Lemma interleaved_runs_keep_queue_witness :
  messages (sys_state (exec (overlapping 1700000086400 1700000086401 true true) st_hello))
  = [0%nat]
  /\ exists m',
       heap (sys_state (exec (overlapping 1700000086400 1700000086401 true true) st_hello))
         !! 0%nat = Some m'
       /\ Message.id m' = 1700000000000.
Proof.
  destruct (interleaved_runs_keep_queue
              (overlapping 1700000086400 1700000086401 true true) st_hello 0%nat
              (Message.mk 1700000000000 "Hello" false 1700000000000 None))
    as (Hq & m' & Hm' & Hi & _).
  - reflexivity.
  - split; [exact Hq|]. exists m'. split; [exact Hm' | exact Hi].
Defined.

(** ** The variants *)

(** X20. In [backend-server.js] the reply of [POST /api/send-now] is the
    success reply in every case, also when the queue had no unsent message
    or the transport refused and nothing changed; and where the checks of
    [server.js] pass, its run marks the store as the run of [server.js]
    does. *)
Theorem BackendServer_sendNow_reports_success outcome now fs_ok st :
  snd (BackendServer.sendNow outcome now st) = Sent
  /\ ((unsentMessages st = [] \/ exists e, outcome = Rejected e) ->
      fst (BackendServer.sendNow outcome now st) = st)
  /\ (transporter st = true -> phoneNumber (config st) <> "" ->
      heap (fst (BackendServer.sendNow outcome now st))
      = heap (fst (sendDailyMessage outcome now fs_ok st))
      /\ messages (fst (BackendServer.sendNow outcome now st))
         = messages (fst (sendDailyMessage outcome now fs_ok st))).
Proof.
  split; [done|]. split.
  - intros [Hu|[e ->]]; simpl; unfold BackendServer.sendDailyMessage.
    + by rewrite Hu.
    + by destruct (unsentMessages st).
  - intros Ht Hp. simpl.
    unfold BackendServer.sendDailyMessage, sendDailyMessage, select.
    destruct (unsentMessages st) as [|r rest]; [done|].
    rewrite Ht. simpl.
    destruct (String.eqb_spec (phoneNumber (config st)) ""); [done|].
    destruct outcome; simpl; [|done].
    by rewrite heap_saveMessages, messages_saveMessages.
Qed.

Lemma BackendServer_sendNow_reports_success_witness :
  BackendServer.sendNow (Rejected "ETIMEDOUT") 1700000086400 st_hello
  = (st_hello, Sent).
Proof.
  destruct (BackendServer_sendNow_reports_success
              (Rejected "ETIMEDOUT") 1700000086400 true st_hello) as (H1 & H2 & _).
  rewrite <- H1, <- (H2 (or_intror (ex_intro _ "ETIMEDOUT" eq_refl))) at 1.
  reflexivity.
Defined.

(** X21. In the Resend variant, once a message is selected: a response that
    is not [ok] makes the run report the body after the prefix
    ["Resend API error: "] and change nothing; so do an accepted mail whose
    reply body cannot be parsed and one whose reply body is [null], on
    which the read of [result.id] throws, and both leave the message to be
    sent again by the next run; and an [ok] response with any other parsed
    body does to the state what a delivered run of [server.js] does and
    reports success with the [id] of the body. *)
Theorem Resend_refusals_keep_message st p now fs_ok t j b e i :
  select st = inr p ->
  Resend.sendDailyMessage (Resend.Response false (Resend.Got t) j) now fs_ok st
  = (st, (mkResult false ("Resend API error: " +:+ t), None))
  /\ Resend.sendDailyMessage (Resend.Response true b (Resend.Unparsable e)) now fs_ok st
     = (st, (mkResult false e, None))
  /\ Resend.sendDailyMessage
       (Resend.Response true b (Resend.Parsed Resend.BodyNull)) now fs_ok st
     = (st, (mkResult false Resend.null_id_error, None))
  /\ Resend.sendDailyMessage
       (Resend.Response true b (Resend.Parsed (Resend.BodyWith i))) now fs_ok st
     = (fst (sendDailyMessage Delivered now fs_ok st), (Sent, i)).
Proof.
  intros Hsel. destruct (select_inr _ _ Hsel) as (rest & m & Hu & _ & _ & Ht & Hp & _).
  unfold Resend.sendDailyMessage, sendDailyMessage. rewrite Hsel.
  rewrite Hu, Ht. simpl.
  destruct (String.eqb_spec (phoneNumber (config st)) ""); [done|]. done.
Qed.

Lemma Resend_refusals_keep_message_witness :
  Resend.sendDailyMessage
    (Resend.Response false (Resend.Got "validation_error") (Resend.Unparsable ""))
    1700000086400 true st_hello
  = (st_hello, (mkResult false "Resend API error: validation_error", None))
  /\ Resend.sendDailyMessage
       (Resend.Response true (Resend.Got "null") (Resend.Parsed Resend.BodyNull))
       1700000086400 true st_hello
     = (st_hello, (mkResult false Resend.null_id_error, None)).
Proof.
  destruct (Resend_refusals_keep_message st_hello
              (mkPending 0 "5551234567@tmomail.net" "Hello")
              1700000086400 true "validation_error" (Resend.Unparsable "")
              (Resend.Got "null") "" None) as (H1 & _ & H3 & _).
  - vm_compute. reflexivity.
  - split; [exact H1 | exact H3].
Defined.

(** ** Well-formedness across restarts *)





